(** * The TMDB normalization layer

    A shallow embedding of the seven request/response wrappers of the movie
    front-end ([fetchMoviesRecommendation], [fetchTrendingMovies],
    [fetchMovieDetail], [fetchMovieCredits], [fetchMovieTrailer],
    [fetchMovieReviews], [searchMovies]) and the properties their
    specification states about them.

    The wrappers are TypeScript: the interfaces they declare are erased at run
    time, and what they receive from [res.json()] is an arbitrary JSON value.
    The embedding therefore works on untyped values and gives the JavaScript
    operations the code relies on (property reads, [.map], [.toString()],
    template literals, [||], [?.], [??], [encodeURIComponent]) their own
    definitions, exceptions included. *)

From Stdlib Require Import String Ascii ZArith NArith Bool Lia.
From Stdlib Require Import DecimalString List.
Import ListNotations.

(** ** Strings *)

(** A JavaScript string is a sequence of UTF-16 code units, numbers below
    2^16. *)
Definition code_unit := N.
Definition jsstring := list code_unit.

(** The string of an ASCII literal of the source. *)
Definition js (s : string) : jsstring :=
  map N_of_ascii (list_ascii_of_string s).

Fixpoint jsstring_eqb (a b : jsstring) : bool :=
  match a, b with
  | [], [] => true
  | x :: a', y :: b' => N.eqb x y && jsstring_eqb a' b'
  | _, _ => false
  end.

(** ** Numbers *)

(** The Number values the wrappers meet are the ones [JSON.parse] builds.
    They are never computed with: a number is passed through, rendered by
    [Number.prototype.toString], or tested for truthiness.  [Int z] is the
    integral Number [z], for [z] a safe integer (of magnitude below 2^53, as
    the upstream ids are); [Real shown] is any other Number (7.5, 1e+21),
    named by the digits that [Number::toString] gives it.  Every [Real] is
    non-zero, and [JSON.parse] builds no NaN. *)
Inductive number : Type :=
| Int (z : Z)
| Real (shown : jsstring).

(** The digits of an integer in radix 10, with a leading minus sign below
    zero: what [Number::toString] yields on a safe integer. *)
Definition decimal (z : Z) : jsstring :=
  js (NilZero.string_of_int (Z.to_int z)).

Definition Number_toString (n : number) : jsstring :=
  match n with
  | Int z => decimal z
  | Real shown => shown
  end.

(** ** Values *)

(** [Undefined] is not a JSON value; it is what reading an absent property
    yields, and so may sit in the records the wrappers return.  [Obj] lists
    the own properties of a plain object, the first entry of a key being the
    property. *)
#[warnings="-register-all"] Inductive value : Type :=
| Undefined
| Null
| Bool (b : bool)
| Num (n : number)
| Str (s : jsstring)
| Arr (elems : list value)
| Obj (props : list (jsstring * value)).

Fixpoint own_property (name : jsstring) (props : list (jsstring * value))
  : option value :=
  match props with
  | [] => None
  | (k, v) :: rest =>
      if jsstring_eqb name k then Some v else own_property name rest
  end.

(** ** Exceptions and completions *)

(** The exceptions that can be raised inside the wrappers: [Error message] is
    the [new Error(..)] of the source, the other three are raised by the
    language ([TypeError]: a property read on null or undefined, a call of
    something that is no function, a failed conversion to a primitive, a
    network failure of [fetch]; [SyntaxError]: [res.json()] on a malformed
    body; [URIError]: [encodeURIComponent] on an unpaired surrogate). *)
Inductive exn : Type :=
| Error (message : string)
| TypeError
| SyntaxError
| URIError.

(** The completion of an evaluation: a value, or a thrown exception. *)
Inductive completion (A : Type) : Type :=
| Normal (a : A)
| Throw (e : exn).

Arguments Normal {A} a.
Arguments Throw {A} e.

Definition bind {A B} (c : completion A) (k : A -> completion B)
  : completion B :=
  match c with
  | Normal a => k a
  | Throw e => Throw e
  end.

Notation "x <- c ;; k" := (bind c (fun x => k))
  (at level 61, c at next level, right associativity).
Notation "c ;;; k" := (bind c (fun _ => k))
  (at level 61, right associativity).

(** ** The operations of the language *)

(** [v.name], for the data property names of the source (none of which a
    built-in prototype defines, so that on a string, a number, a boolean or
    an array the read yields undefined). *)
Definition Get (v : value) (name : string) : completion value :=
  match v with
  | Undefined | Null => Throw TypeError
  | Obj props =>
      Normal (match own_property (js name) props with
              | Some x => x
              | None => Undefined
              end)
  | Bool _ | Num _ | Str _ | Arr _ => Normal Undefined
  end.

(** [v[0]]. *)
Definition Get0 (v : value) : completion value :=
  match v with
  | Undefined | Null => Throw TypeError
  | Arr elems => Normal (match elems with x :: _ => x | [] => Undefined end)
  | Str s => Normal (match s with c :: _ => Str [c] | [] => Undefined end)
  | Obj props =>
      Normal (match own_property (js "0") props with
              | Some x => x
              | None => Undefined
              end)
  | Bool _ | Num _ => Normal Undefined
  end.

(** [v?.name]. *)
Definition OptionalGet (v : value) (name : string) : completion value :=
  match v with
  | Undefined | Null => Normal Undefined
  | _ => Get v name
  end.

(** [a ?? b]. *)
Definition nullish (a b : value) : value :=
  match a with
  | Undefined | Null => b
  | _ => a
  end.

Definition ToBoolean (v : value) : bool :=
  match v with
  | Undefined | Null => false
  | Bool b => b
  | Num (Int z) => negb (Z.eqb z 0)
  | Num (Real _) => true
  | Str s => match s with [] => false | _ :: _ => true end
  | Arr _ | Obj _ => true
  end.

(** [a || b]. *)
Definition or_else (a b : value) : value :=
  if ToBoolean a then a else b.

Definition has_own (name : string) (props : list (jsstring * value)) : bool :=
  match own_property (js name) props with
  | Some _ => true
  | None => false
  end.

(** [ToString], as a template literal applies it.  A plain object answers
    through [Object.prototype.toString] unless it has a [toString] property
    of its own, which, coming from JSON, is no function: the conversion to
    a primitive then finds nothing to call that returns a primitive, and
    throws.  An array answers through [Array.prototype.join]: its elements
    separated by commas, null and undefined ones rendered empty. *)
Fixpoint ToString (v : value) : completion jsstring :=
  match v with
  | Undefined => Normal (js "undefined")
  | Null => Normal (js "null")
  | Bool true => Normal (js "true")
  | Bool false => Normal (js "false")
  | Num n => Normal (Number_toString n)
  | Str s => Normal s
  | Arr elems =>
      (fix join (first : bool) (l : list value) : completion jsstring :=
         match l with
         | [] => Normal []
         | x :: rest =>
             s <- match x with
                  | Undefined | Null => Normal []
                  | _ => ToString x
                  end ;;
             tail <- join false rest ;;
             Normal ((if first then [] else js ",") ++ s ++ tail)
         end) true elems
  | Obj props =>
      if has_own "toString" props then Throw TypeError
      else Normal (js "[object Object]")
  end.

(** [v.toString()]: the method call, which differs from [ToString] on null
    and undefined, where reading the method throws. *)
Definition call_toString (v : value) : completion jsstring :=
  match v with
  | Undefined | Null => Throw TypeError
  | _ => ToString v
  end.

(** [v.map(f)]: only an array has a [map] to call.  The callback runs on the
    elements from left to right, and the first exception ends the call. *)
Fixpoint map_elements {B} (f : value -> completion B) (l : list value)
  : completion (list B) :=
  match l with
  | [] => Normal []
  | x :: rest =>
      y <- f x ;;
      ys <- map_elements f rest ;;
      Normal (y :: ys)
  end.

Definition call_map {B} (v : value) (f : value -> completion B)
  : completion (list B) :=
  match v with
  | Arr elems => map_elements f elems
  | _ => Throw TypeError
  end.

(** ** [encodeURIComponent] *)

(** The code units that [encodeURIComponent] leaves as they are: letters,
    digits and [- _ . ! ~ * ' ( )]. *)
Definition uri_unreserved (c : code_unit) : bool :=
  ((65 <=? c) && (c <=? 90) || (97 <=? c) && (c <=? 122)
   || (48 <=? c) && (c <=? 57)
   || existsb (N.eqb c) [45; 95; 46; 33; 126; 42; 39; 40; 41])%N.

Definition hex_digit (n : N) : code_unit :=
  (if n mod 16 <? 10 then 48 + n mod 16 else 55 + n mod 16)%N.

(** ["%XX"], in upper-case hexadecimal. *)
Definition percent (octet : N) : jsstring :=
  [37%N; hex_digit (octet / 16); hex_digit octet].

Definition utf8 (cp : N) : list N :=
  (if cp <? 128 then [cp]
   else if cp <? 2048 then [192 + cp / 64; 128 + cp mod 64]
   else if cp <? 65536 then
     [224 + cp / 4096; 128 + (cp / 64) mod 64; 128 + cp mod 64]
   else
     [240 + cp / 262144; 128 + (cp / 4096) mod 64;
      128 + (cp / 64) mod 64; 128 + cp mod 64])%N.

Definition leading_surrogate (c : code_unit) : bool :=
  ((55296 <=? c) && (c <=? 56319))%N.
Definition trailing_surrogate (c : code_unit) : bool :=
  ((56320 <=? c) && (c <=? 57343))%N.

Definition escape (cp : N) : jsstring := List.concat (map percent (utf8 cp)).

(** The [Encode] operation of the language on the unreserved set above: a
    code unit outside the set is read as a code point, two units for a
    surrogate pair, and replaced by the escapes of its UTF-8 octets; a
    surrogate without its partner raises [URIError]. *)
Fixpoint encodeURIComponent (s : jsstring) : completion jsstring :=
  match s with
  | [] => Normal []
  | c :: rest =>
      if uri_unreserved c then
        tail <- encodeURIComponent rest ;;
        Normal (c :: tail)
      else if trailing_surrogate c then Throw URIError
      else if leading_surrogate c then
        match rest with
        | [] => Throw URIError
        | d :: rest' =>
            if trailing_surrogate d then
              tail <- encodeURIComponent rest' ;;
              Normal (escape ((c - 55296) * 1024 + (d - 56320) + 65536)%N
                        ++ tail)
            else Throw URIError
        end
      else
        tail <- encodeURIComponent rest ;;
        Normal (escape c ++ tail)
  end.

(** ** The local shapes *)

(** Fields the wrappers copy from the response keep whatever value the
    response had there; fields they build are strings. *)
Module Movie.
Record t : Type :=
  { id : jsstring; title : value; image : jsstring; rating : value }.
End Movie.

Module MovieDetail.
Record t : Type :=
  { id : jsstring; title : value; image : jsstring; rating : value;
    overview : value; releaseDate : value; runtime : value;
    genres : value; spoken_languages : value }.
End MovieDetail.

Module Cast.
Record t : Type :=
  { id : jsstring; profile_path : value; name : value; character : value;
    known_for_department : value }.
End Cast.

Module Review.
Record t : Type :=
  { id : value; author : value; content : value; created_at : value;
    url : value; rating : value; avatar_path : value }.
End Review.

(** ** Requests and responses *)

Record request : Type :=
  { url : jsstring;
    headers : list (string * jsstring);
    revalidate : option Z }.

(** Of a response the wrappers read [ok] and await [json()], which resolves
    to the parsed body or rejects. *)
Record response : Type :=
  { ok : bool;
    json : completion value }.

(** [if (!res.ok) throw new Error(message)]. *)
Definition check_ok (res : response) (message : string) : completion unit :=
  if negb (ok res) then Throw (Error message) else Normal tt.

Definition image_base : jsstring := js "https://image.tmdb.org/t/p/w500".

(** ** The mapping callbacks *)

(** The arrow function that [fetchMoviesRecommendation],
    [fetchTrendingMovies] and [searchMovies] each pass to [.map]; the three
    copies in the source are the same text. *)
Definition to_Movie (movie : value) : completion Movie.t :=
  id <- Get movie "id" ;;
  id <- call_toString id ;;
  title <- Get movie "title" ;;
  poster_path <- Get movie "poster_path" ;;
  poster_path <- ToString poster_path ;;
  vote_average <- Get movie "vote_average" ;;
  Normal {| Movie.id := id;
            Movie.title := title;
            Movie.image := image_base ++ poster_path;
            Movie.rating := vote_average |}.

(** The object literal that [fetchMovieDetail] returns. *)
Definition to_MovieDetail (data : value) : completion MovieDetail.t :=
  id <- Get data "id" ;;
  id <- call_toString id ;;
  title <- Get data "title" ;;
  poster_path <- Get data "poster_path" ;;
  poster_path <- ToString poster_path ;;
  vote_average <- Get data "vote_average" ;;
  overview <- Get data "overview" ;;
  release_date <- Get data "release_date" ;;
  runtime <- Get data "runtime" ;;
  genres <- Get data "genres" ;;
  spoken_languages <- Get data "spoken_languages" ;;
  Normal {| MovieDetail.id := id;
            MovieDetail.title := title;
            MovieDetail.image := image_base ++ poster_path;
            MovieDetail.rating := vote_average;
            MovieDetail.overview := overview;
            MovieDetail.releaseDate := release_date;
            MovieDetail.runtime := runtime;
            MovieDetail.genres := genres;
            MovieDetail.spoken_languages := spoken_languages |}.

(** The arrow function of [fetchMovieCredits]. *)
Definition to_Cast (cast : value) : completion Cast.t :=
  id <- Get cast "id" ;;
  id <- call_toString id ;;
  profile_path <- Get cast "profile_path" ;;
  name <- Get cast "name" ;;
  character <- Get cast "character" ;;
  known_for_department <- Get cast "known_for_department" ;;
  Normal {| Cast.id := id;
            Cast.profile_path := profile_path;
            Cast.name := name;
            Cast.character := character;
            Cast.known_for_department := known_for_department |}.

(** The arrow function of [fetchMovieReviews]. *)
Definition to_Review (review : value) : completion Review.t :=
  id <- Get review "id" ;;
  author <- Get review "author" ;;
  content <- Get review "content" ;;
  created_at <- Get review "created_at" ;;
  url <- Get review "url" ;;
  author_details <- Get review "author_details" ;;
  rating <- OptionalGet author_details "rating" ;;
  author_details <- Get review "author_details" ;;
  avatar_path <- OptionalGet author_details "avatar_path" ;;
  Normal {| Review.id := id;
            Review.author := author;
            Review.content := content;
            Review.created_at := created_at;
            Review.url := url;
            Review.rating := nullish rating Null;
            Review.avatar_path := nullish avatar_path Null |}.

(** ** Effects *)

(** A wrapper acts on the outside twice at most: it sends a request, and it
    writes to the console.  Its outcome is the trace of these events, in
    order, and its completion. *)
Inductive event : Type :=
| Requested (req : request)
| Logged (label : string) (error : exn).

Record outcome (A : Type) : Type :=
  { trace : list event;
    result : completion A }.

Arguments trace {A} o.
Arguments result {A} o.

(** An evaluation without events. *)
Definition pure {A} (c : completion A) : outcome A :=
  {| trace := []; result := c |}.

Definition and_then {A B} (m : outcome A) (k : A -> outcome B) : outcome B :=
  match result m with
  | Normal a => {| trace := trace m ++ trace (k a); result := result (k a) |}
  | Throw e => {| trace := trace m; result := Throw e |}
  end.

Notation "x <<- m ;; k" := (and_then m (fun x => k))
  (at level 61, m at next level, right associativity).
Notation "m >>> k" := (and_then m (fun _ => k))
  (at level 61, right associativity).

(** [try { body } catch (error) { handler }]. *)
Definition try_catch {A} (body : outcome A) (handler : exn -> outcome A)
  : outcome A :=
  match result body with
  | Normal _ => body
  | Throw error =>
      {| trace := trace body ++ trace (handler error);
         result := result (handler error) |}
  end.

(** [console.error(label, error)]. *)
Definition console_error (label : string) (error : exn) : outcome unit :=
  {| trace := [Logged label error]; result := Normal tt |}.

Definition requests (events : list event) : list request :=
  flat_map (fun ev => match ev with
                      | Requested req => [req]
                      | Logged _ _ => []
                      end) events.

(** ** The seven wrappers *)

Definition header (name : string) (content : jsstring) : string * jsstring :=
  (name, content).

Section Wrappers.

(** [process.env.NEXT_PUBLIC_TMDB_ACCESS_TOKEN], a string or undefined, and
    the upstream API as the platform reaches it: a request is answered by a
    response, or the call rejects. *)
Variable token : option jsstring.
Variable upstream : request -> completion response.

(** [await fetch(url, options)]. *)
Definition fetch (req : request) : outcome response :=
  {| trace := [Requested req]; result := upstream req |}.

Definition bearer : jsstring :=
  js "Bearer " ++ match token with
                  | Some t => t
                  | None => js "undefined"
                  end.

Definition recommendation_request (movieId : jsstring) : request :=
  {| url := js "https://api.themoviedb.org/3/movie/" ++ movieId
            ++ js "/recommendations";
     headers := [header "Authorization" bearer];
     revalidate := None |}.

Definition fetchMoviesRecommendation (movieId : jsstring)
  : outcome (list Movie.t) :=
  try_catch
    (res <<- fetch (recommendation_request movieId) ;;
     pure (check_ok res "Failed to fetch movies recommendation" ;;;
           data <- json res ;;
           results <- Get data "results" ;;
           call_map results to_Movie))
    (fun error =>
       console_error "Error fetching movies recommendation:" error >>>
       pure (Normal [])).

Definition trending_request : request :=
  {| url := js "https://api.themoviedb.org/3/trending/movie/week";
     headers := [header "Authorization" bearer;
                 header "Content-Type" (js "application/json")];
     revalidate := Some 60%Z |}.

Definition fetchTrendingMovies : outcome (list Movie.t) :=
  try_catch
    (res <<- fetch trending_request ;;
     pure (check_ok res "Failed to fetch trending movies" ;;;
           data <- json res ;;
           results <- Get data "results" ;;
           call_map results to_Movie))
    (fun error =>
       console_error "Error fetching trending movies:" error >>>
       pure (Normal [])).

Definition detail_request (movieId : jsstring) : request :=
  {| url := js "https://api.themoviedb.org/3/movie/" ++ movieId;
     headers := [header "Authorization" bearer];
     revalidate := None |}.

Definition fetchMovieDetail (movieId : jsstring) : outcome MovieDetail.t :=
  try_catch
    (res <<- fetch (detail_request movieId) ;;
     pure (check_ok res "Failed to fetch movie detail" ;;;
           data <- json res ;;
           to_MovieDetail data))
    (fun error =>
       console_error "Error fetching movie detail:" error >>>
       pure (Throw error)).

Definition credits_request (movieId : jsstring) : request :=
  {| url := js "https://api.themoviedb.org/3/movie/" ++ movieId
            ++ js "/credits";
     headers := [header "Authorization" bearer];
     revalidate := None |}.

Definition fetchMovieCredits (movieId : jsstring) : outcome (list Cast.t) :=
  try_catch
    (res <<- fetch (credits_request movieId) ;;
     pure (check_ok res "Failed to fetch movie credits" ;;;
           data <- json res ;;
           cast <- Get data "cast" ;;
           call_map cast to_Cast))
    (fun error =>
       console_error "Error fetching movie credits:" error >>>
       pure (Normal [])).

Definition trailer_request (movieId : jsstring) : request :=
  {| url := js "https://api.themoviedb.org/3/movie/" ++ movieId
            ++ js "/videos";
     headers := [header "Authorization" bearer];
     revalidate := None |}.

(** The result is a [MovieTrailer] or null: the element of the response
    itself, not a copy of its fields. *)
Definition fetchMovieTrailer (movieId : jsstring) : outcome value :=
  try_catch
    (res <<- fetch (trailer_request movieId) ;;
     pure (check_ok res "Failed to fetch movie trailer" ;;;
           data <- json res ;;
           results <- Get data "results" ;;
           first <- Get0 results ;;
           Normal (or_else first Null)))
    (fun error =>
       console_error "Error fetching movie trailer:" error >>>
       pure (Normal Null)).

Definition reviews_request (movieId : jsstring) : request :=
  {| url := js "https://api.themoviedb.org/3/movie/" ++ movieId
            ++ js "/reviews";
     headers := [header "Authorization" bearer];
     revalidate := None |}.

Definition fetchMovieReviews (movieId : jsstring)
  : outcome (list Review.t) :=
  try_catch
    (res <<- fetch (reviews_request movieId) ;;
     pure (check_ok res "Failed to fetch movie reviews" ;;;
           data <- json res ;;
           results <- Get data "results" ;;
           call_map results to_Review))
    (fun error =>
       console_error "Error fetching movie reviews:" error >>>
       pure (Normal [])).

Definition search_request (encoded : jsstring) : request :=
  {| url := js "https://api.themoviedb.org/3/search/movie?query="
            ++ encoded ++ js "&language=en-US";
     headers := [header "Authorization" bearer];
     revalidate := None |}.

Definition searchMovies (query : jsstring) : outcome (list Movie.t) :=
  try_catch
    (encoded <<- pure (encodeURIComponent query) ;;
     response <<- fetch (search_request encoded) ;;
     pure (check_ok response "영화 검색에 실패했습니다." ;;;
           data <- json response ;;
           results <- Get data "results" ;;
           call_map results to_Movie))
    (fun error =>
       console_error "Error searching movies:" error >>>
       pure (Normal [])).

End Wrappers.

(** ** Responses, as the properties speak of them *)

Section Responses.

Variable upstream : request -> completion response.

(** The request is answered with a success status and a body that parses to
    [data]. *)
Definition answers (req : request) (data : value) : Prop :=
  exists res,
    upstream req = Normal res /\ ok res = true /\ json res = Normal data.

(** Moreover [data] holds, under [field], a list of [items]. *)
Definition lists (req : request) (field : string) (items : list value)
  : Prop :=
  exists data, answers req data /\ Get data field = Normal (Arr items).

(** The request is answered with a status that is no success. *)
Definition refused (req : request) : Prop :=
  exists res, upstream req = Normal res /\ ok res = false.

(** The request is answered with a success status, and a body that does not
    parse, or that parses to something on which [after] raises: [e] is the
    exception. *)
Definition malformed {A} (req : request) (after : value -> completion A)
           (e : exn) : Prop :=
  exists res,
    upstream req = Normal res /\ ok res = true
    /\ (json res = Throw e
        \/ exists data, json res = Normal data /\ after data = Throw e).

(** The ways a request can fail inside a wrapper that throws [Error message]
    on a bad status and then runs [after] on the parsed body, each with the
    exception it raises there. *)
Inductive failure {A} (req : request) (message : string)
          (after : value -> completion A) : exn -> Prop :=
| fetch_rejects e :
    upstream req = Throw e -> failure req message after e
| status_not_ok :
    refused req -> failure req message after (Error message)
| body_malformed e :
    malformed req after e -> failure req message after e.

(** What a [try] block computes once [fetch] is called. *)
Definition guarded {A} (req : request) (message : string)
           (after : value -> completion A) : completion A :=
  res <- upstream req ;;
  check_ok res message ;;;
  data <- json res ;;
  after data.

End Responses.

(** What is left of a completion behind a [catch] that returns
    [fallback]. *)
Definition recover {A} (fallback : A) (c : completion A) : completion A :=
  match c with
  | Normal a => Normal a
  | Throw _ => Normal fallback
  end.

(** The [catch] blocks: all log; six return a fallback, one throws again. *)
Definition fall_back {A} (label : string) (fallback : A) (error : exn)
  : outcome A :=
  console_error label error >>> pure (Normal fallback).

Definition rethrow {A} (label : string) (error : exn) : outcome A :=
  console_error label error >>> pure (Throw error).

Definition maps {B} (f : value -> completion B) (item : value) : Prop :=
  exists out, f item = Normal out.

(** [data.field.map(f)], the tail of five of the [try] blocks, and the tail
    of the sixth. *)
Definition map_field {B} (field : string) (f : value -> completion B)
           (data : value) : completion (list B) :=
  results <- Get data field ;;
  call_map results f.

Definition first_or_null (data : value) : completion value :=
  results <- Get data "results" ;;
  first <- Get0 results ;;
  Normal (or_else first Null).

(** [out] stands in the list a wrapper returned where [item] stands in the
    list of the response. *)
Definition at_same_index {A} (items : list value) (outs : list A)
           (item : value) (out : A) : Prop :=
  exists i, nth_error items i = Some item /\ nth_error outs i = Some out.

(** The wrapper returned a list as long as [items] whose entries are, index
    by index, what [f] makes of the items. *)
Definition yields_mapped {A} (o : outcome (list A))
           (f : value -> completion A) (items : list value) : Prop :=
  exists outs,
    result o = Normal outs
    /\ length outs = length items
    /\ forall i, option_map f (nth_error items i)
                 = option_map Normal (nth_error outs i).

(** The wrapper never throws, and returns [fallback] on each of the
    failures [failed]. *)
Definition falls_back {A} (o : outcome A) (fallback : A)
           (failed : exn -> Prop) : Prop :=
  (exists v, result o = Normal v)
  /\ forall e, failed e -> result o = Normal fallback.

(** [String.prototype.isWellFormed]: every surrogate of the string stands in
    a pair, a leading one followed by a trailing one. *)
Fixpoint isWellFormed (s : jsstring) : bool :=
  match s with
  | [] => true
  | c :: rest =>
      if leading_surrogate c then
        match rest with
        | d :: rest' => trailing_surrogate d && isWellFormed rest'
        | [] => false
        end
      else negb (trailing_surrogate c) && isWellFormed rest
  end.

(** The code units an encoded component is made of: the unreserved ones and
    the percent sign. *)
Definition uri_safe (c : code_unit) : Prop :=
  uri_unreserved c = true \/ c = 37%N.

Definition search_failed : string := "영화 검색에 실패했습니다.".

Section Entries.

Variable token : option jsstring.
Variable upstream : request -> completion response.
Variable movieId query : jsstring.

(** The failures of a search: the query cannot be encoded, or the request
    made for the encoded query fails. *)
Inductive search_failure : exn -> Prop :=
| query_not_encoded e :
    encodeURIComponent query = Throw e -> search_failure e
| search_request_fails encoded e :
    encodeURIComponent query = Normal encoded ->
    failure upstream (search_request token encoded) search_failed
            (map_field "results" to_Movie) e ->
    search_failure e.

(** [out] is the entry that the list wrapper with outcome [o] returned for
    [item], an item of the list that the response to [req] holds under
    [field]. *)
Definition entry_of {A} (req : request) (field : string)
           (o : outcome (list A)) (item : value) (out : A) : Prop :=
  exists items outs,
    lists upstream req field items /\ result o = Normal outs
    /\ at_same_index items outs item out.

(** [m] is a summary returned for [item] by one of the three wrappers that
    return summaries. *)
Definition movie_entry (item : value) (m : Movie.t) : Prop :=
  entry_of (trending_request token) "results"
           (fetchTrendingMovies token upstream) item m
  \/ entry_of (recommendation_request token movieId) "results"
              (fetchMoviesRecommendation token upstream movieId) item m
  \/ exists encoded,
       encodeURIComponent query = Normal encoded
       /\ entry_of (search_request token encoded) "results"
                   (searchMovies token upstream query) item m.

Definition cast_entry (item : value) (c : Cast.t) : Prop :=
  entry_of (credits_request token movieId) "cast"
           (fetchMovieCredits token upstream movieId) item c.

Definition review_entry (item : value) (r : Review.t) : Prop :=
  entry_of (reviews_request token movieId) "results"
           (fetchMovieReviews token upstream movieId) item r.

(** [d] is the detail returned for the body [data]. *)
Definition detail_entry (data : value) (d : MovieDetail.t) : Prop :=
  answers upstream (detail_request token movieId) data
  /\ result (fetchMovieDetail token upstream movieId) = Normal d.

End Entries.

(** ** Sample responses

    Bodies of the shapes the upstream API sends, and platforms that answer
    every request the same way. *)

Module Sample.

Definition field (name : string) (v : value) : jsstring * value :=
  (js name, v).

Definition token : option jsstring := Some (js "t0ken").

Definition fight_club : value :=
  Obj [field "id" (Num (Int 550));
       field "title" (Str (js "Fight Club"));
       field "poster_path" (Str (js "/pB8BM7pdSp6B6Ih7QZ4DrQ3PmJK.jpg"));
       field "vote_average" (Num (Real (js "8.4")))].

Definition unreleased : value :=
  Obj [field "id" (Num (Int 999001));
       field "title" (Str (js "Untitled"));
       field "poster_path" Null;
       field "vote_average" (Num (Int 0))].

Definition movies : value :=
  Obj [field "page" (Num (Int 1));
       field "results" (Arr [fight_club; unreleased])].

Definition detail : value :=
  Obj [field "id" (Num (Int 550));
       field "title" (Str (js "Fight Club"));
       field "poster_path" (Str (js ""));
       field "vote_average" (Num (Real (js "8.4")));
       field "overview" (Str (js "An insomniac office worker."));
       field "release_date" (Str (js "1999-10-15"));
       field "runtime" (Num (Int 139));
       field "genres"
         (Arr [Obj [field "id" (Num (Int 18));
                    field "name" (Str (js "Drama"))]]);
       field "spoken_languages"
         (Arr [Obj [field "english_name" (Str (js "English"));
                    field "iso_639_1" (Str (js "en"));
                    field "name" (Str (js "English"))]])].

Definition norton : value :=
  Obj [field "id" (Num (Int 819));
       field "profile_path" (Str (js "/8nytsqL59SFJTVYVrN72k6qkGgJ.jpg"));
       field "name" (Str (js "Edward Norton"));
       field "character" (Str (js "Narrator"));
       field "known_for_department" (Str (js "Acting"))].

Definition credits : value :=
  Obj [field "id" (Num (Int 550)); field "cast" (Arr [norton])].

Definition teaser : value :=
  Obj [field "key" (Str (js "6JnN1DmbqoU")); field "site" (Str (js "YouTube"))].

Definition featurette : value :=
  Obj [field "key" (Str (js "dfeUzm6KF4g")); field "site" (Str (js "Vimeo"))].

Definition videos : value :=
  Obj [field "id" (Num (Int 550)); field "results" (Arr [teaser; featurette])].

Definition no_videos : value :=
  Obj [field "id" (Num (Int 550)); field "results" (Arr [])].

Definition rated : value :=
  Obj [field "id" (Str (js "5b1c13b9c3a36848f2026384"));
       field "author" (Str (js "Goddard"));
       field "content" (Str (js "Pretty awesome movie."));
       field "created_at" (Str (js "2018-06-09T17:51:53.359Z"));
       field "url" (Str (js "https://www.themoviedb.org/review/5b1c13b9"));
       field "author_details"
         (Obj [field "name" (Str (js ""));
               field "avatar_path" Null;
               field "rating" (Num (Int 7))])].

Definition anonymous : value :=
  Obj [field "id" (Str (js "5b3e1ba6925141144300139c"));
       field "author" (Str (js "Brett"));
       field "content" (Str (js "In my top 5 of all time."));
       field "created_at" (Str (js "2018-07-05T13:22:46.457Z"));
       field "url" (Str (js "https://www.themoviedb.org/review/5b3e1ba6"))].

Definition reviews : value :=
  Obj [field "id" (Num (Int 550)); field "results" (Arr [rated; anonymous])].

(** The error body the upstream API sends with a 404. *)
Definition not_found : value :=
  Obj [field "success" (Bool false);
       field "status_code" (Num (Int 34));
       field "status_message"
         (Str (js "The resource you requested could not be found."))].

Definition replies (body : value) (_ : request) : completion response :=
  Normal {| ok := true; json := Normal body |}.

Definition refuses (_ : request) : completion response :=
  Normal {| ok := false; json := Normal not_found |}.

Definition garbles (_ : request) : completion response :=
  Normal {| ok := true; json := Throw SyntaxError |}.

Definition offline (_ : request) : completion response :=
  Throw TypeError.

Definition movieId : jsstring := js "550".

End Sample.

(** ** Traces, as the further properties speak of them *)

(** What a [catch] block that logs under [label] writes behind a [try]
    block that completed with [c]. *)
Definition logged {A} (label : string) (c : completion A) : list event :=
  match c with
  | Normal _ => []
  | Throw e => [Logged label e]
  end.

(** The wrapper with outcome [o] sent [req]; it then wrote one line, under
    [label] and with the exception, when the request failed, and nothing
    when the request was answered with a body on which [after] completed. *)
Definition logs_failures_only {A} (upstream : request -> completion response)
           (o : outcome A) (req : request) (message : string)
           (after : value -> completion A) (label : string) : Prop :=
  (forall e,
      failure upstream req message after e ->
      trace o = [Requested req; Logged label e])
  /\ (forall data v,
         answers upstream req data -> after data = Normal v ->
         trace o = [Requested req]).

(** A code unit is a number below 2^16. *)
Definition code_units (s : jsstring) : Prop :=
  Forall (fun c => (c < 65536)%N) s.

(** The body holds a list under [field]. *)
Definition holds_list (data : value) (field : string) : Prop :=
  exists items, Get data field = Normal (Arr items).

(** An item that is neither null nor undefined. *)
Definition present (item : value) : Prop :=
  item <> Null /\ item <> Undefined.

(** The code point that [encodeURIComponent] reads from a surrogate
    pair. *)
Definition surrogate_pair (c d : code_unit) : N :=
  ((c - 55296) * 1024 + (d - 56320) + 65536)%N.

(** An upstream item as the API sends summaries: it has a numeric [id],
    and its [poster_path] is a string, null, or absent. *)
Definition summary_shaped (item : value) : Prop :=
  exists n poster,
    Get item "id" = Normal (Num n)
    /\ Get item "poster_path" = Normal poster
    /\ (poster = Undefined \/ poster = Null \/ exists s, poster = Str s).

(** ** The local shapes, field by field *)

(** [m] is the summary of the upstream [item]: the [id] is the number of
    the item in decimal, the [title] and the [rating] are the item's
    [title] and [vote_average], and the [image] is the fixed prefix followed
    by the item's [poster_path] (by the word "null" or "undefined" where the
    item has none). *)
Definition summary_of (item : value) (m : Movie.t) : Prop :=
  exists n poster,
    Get item "id" = Normal (Num n)
    /\ Movie.id m = Number_toString n
    /\ Get item "title" = Normal (Movie.title m)
    /\ Get item "poster_path" = Normal poster
    /\ ((exists s,
            poster = Str s
            /\ Movie.image m = js "https://image.tmdb.org/t/p/w500" ++ s)
        \/ (poster = Null
            /\ Movie.image m = js "https://image.tmdb.org/t/p/w500null")
        \/ (poster = Undefined
            /\ Movie.image m
               = js "https://image.tmdb.org/t/p/w500undefined"))
    /\ Get item "vote_average" = Normal (Movie.rating m).

(** An upstream cast item: it has a numeric [id]. *)
Definition cast_shaped (item : value) : Prop :=
  exists n, Get item "id" = Normal (Num n).

(** [c] is the cast entry of the upstream [item]: the [id] in decimal, the
    other four fields as they are. *)
Definition cast_member_of (item : value) (c : Cast.t) : Prop :=
  exists n,
    Get item "id" = Normal (Num n)
    /\ Cast.id c = Number_toString n
    /\ Get item "profile_path" = Normal (Cast.profile_path c)
    /\ Get item "name" = Normal (Cast.name c)
    /\ Get item "character" = Normal (Cast.character c)
    /\ Get item "known_for_department"
       = Normal (Cast.known_for_department c).

(** [r] is the review of the upstream [item]: five fields as they are, and
    the [rating] and [avatar_path] of the item's [author_details], null
    where there are no details or the details have none. *)
Definition review_of (item : value) (r : Review.t) : Prop :=
  Get item "id" = Normal (Review.id r)
  /\ Get item "author" = Normal (Review.author r)
  /\ Get item "content" = Normal (Review.content r)
  /\ Get item "created_at" = Normal (Review.created_at r)
  /\ Get item "url" = Normal (Review.url r)
  /\ exists details rating avatar,
      Get item "author_details" = Normal details
      /\ OptionalGet details "rating" = Normal rating
      /\ OptionalGet details "avatar_path" = Normal avatar
      /\ Review.rating r = nullish rating Null
      /\ Review.avatar_path r = nullish avatar Null.

(** The wrapper returned a list as long as [items], and the entry at each
    index stands in the relation [R] to the item at that index. *)
Definition yields_each {A} (o : outcome (list A))
           (R : value -> A -> Prop) (items : list value) : Prop :=
  exists outs,
    result o = Normal outs
    /\ length outs = length items
    /\ forall i item,
        nth_error items i = Some item ->
        exists out, nth_error outs i = Some out /\ R item out.

(** ** Percent-encoding, in the words of its definition *)

(** The code points of a string: a surrogate pair is one code point. *)
Fixpoint code_points (s : jsstring) : list N :=
  match s with
  | [] => []
  | c :: rest =>
      if leading_surrogate c then
        match rest with
        | d :: rest' =>
            if trailing_surrogate d
            then surrogate_pair c d :: code_points rest'
            else c :: code_points rest
        | [] => [c]
        end
      else c :: code_points rest
  end.

(** An unreserved character stands for itself; any other code point is
    replaced by ["%XX"] for each octet of its UTF-8 form. *)
Definition encode_point (cp : N) : jsstring :=
  if uri_unreserved cp then [cp]
  else List.concat (map percent (utf8 cp)).

(** * Lemmas *)

(** Two steps that recur when a property is run on a sample: the platform
    replies with the sample body, and an entry of the returned list stands
    at index [i]. *)
Ltac replied :=
  eexists; split;
  [eexists; split; [|split]; reflexivity | reflexivity].

Ltac entered i :=
  do 2 eexists;
  split; [replied | split; [reflexivity | exists i; split; reflexivity]].

(** ** The operations of the language, on examples *)

Example decimal_examples :
  decimal 550 = js "550" /\ decimal 0 = js "0" /\ decimal (-12) = js "-12".
Proof. repeat split. Qed.

Example ToString_examples :
  ToString (Arr [Num (Int 1); Null; Arr [Str (js "x"); Bool true]])
  = Normal (js "1,,x,true")
  /\ ToString (Obj []) = Normal (js "[object Object]")
  /\ ToString (Obj [(js "toString", Num (Int 1))]) = Throw TypeError
  /\ call_toString Null = Throw TypeError.
Proof. repeat split. Qed.

Example encodeURIComponent_examples :
  encodeURIComponent (js "a b&c=d/e?f") = Normal (js "a%20b%26c%3Dd%2Fe%3Ff")
  /\ encodeURIComponent [233; 50504; 55357; 56832]%N
     = Normal (js "%C3%A9%EC%95%88%F0%9F%98%80")
  /\ encodeURIComponent [56832; 55357]%N = Throw URIError.
Proof. repeat split. Qed.

(** ** Completions *)

Lemma bind_Normal_inv {A B} (c : completion A) (k : A -> completion B) b :
  bind c k = Normal b -> exists a, c = Normal a /\ k a = Normal b.
Proof. destruct c as [a|e]; simpl; [eauto | discriminate]. Qed.

Lemma map_elements_Forall2 {B} (f : value -> completion B) items outs :
  map_elements f items = Normal outs <->
  Forall2 (fun item out => f item = Normal out) items outs.
Proof.
  revert outs; induction items as [|x items IH]; intros outs; simpl.
  - split.
    + intros [= <-]. constructor.
    + intros H. inversion H. reflexivity.
  - split.
    + intros H.
      apply bind_Normal_inv in H as (y & Hy & H).
      apply bind_Normal_inv in H as (ys & Hys & [= <-]).
      constructor; [assumption | now apply IH].
    + intros H. inversion H as [|? y ? ys Hy Hys]; subst.
      rewrite Hy. simpl. apply IH in Hys. rewrite Hys. reflexivity.
Qed.

Lemma map_elements_total {B} (f : value -> completion B) items :
  Forall (maps f) items -> exists outs, map_elements f items = Normal outs.
Proof.
  induction 1 as [|x items [y Hy] _ [ys Hys]]; simpl.
  - eauto.
  - rewrite Hy, Hys. simpl. eauto.
Qed.

Lemma Forall2_nth_error {A B} (R : A -> B -> Prop) l l' :
  Forall2 R l l' ->
  forall i a b, nth_error l i = Some a -> nth_error l' i = Some b -> R a b.
Proof.
  induction 1 as [|x y l l' Hxy _ IH]; intros [|i] a b; simpl;
    try discriminate.
  - intros [= <-] [= <-]. assumption.
  - apply IH.
Qed.

Lemma Forall2_option_map {B} (f : value -> completion B) items outs :
  Forall2 (fun item out => f item = Normal out) items outs ->
  forall i, option_map f (nth_error items i)
            = option_map Normal (nth_error outs i).
Proof.
  induction 1 as [|x y l l' Hxy _ IH]; intros [|i]; simpl; auto.
  now rewrite Hxy.
Qed.

Lemma map_field_Arr {B} field (f : value -> completion B) data items :
  Get data field = Normal (Arr items) ->
  map_field field f data = map_elements f items.
Proof. unfold map_field. now intros ->. Qed.

Lemma recover_not_Throw {A} (fallback : A) (c : completion A) e :
  recover fallback c <> Throw e.
Proof. destruct c; discriminate. Qed.

(** ** The shape of a [try] block *)

Section GuardedFacts.

Variable upstream : request -> completion response.
Variable A : Type.
Variable req : request.
Variable message : string.
Variable after : value -> completion A.

Lemma guarded_answers data :
  answers upstream req data -> guarded upstream req message after = after data.
Proof.
  intros (res & Hres & Hok & Hjson). unfold guarded, check_ok.
  rewrite Hres. simpl. rewrite Hok. simpl. rewrite Hjson. reflexivity.
Qed.

Lemma guarded_failure e :
  failure upstream req message after e ->
  guarded upstream req message after = Throw e.
Proof.
  unfold guarded, check_ok.
  intros [e' H | (res & H & Hok)
          | e' (res & H & Hok & [Hjson | (data & Hjson & Ha)])];
    rewrite H; simpl; trivial; rewrite Hok; simpl; trivial;
    rewrite Hjson; simpl; trivial.
Qed.

Lemma guarded_Normal_inv a :
  guarded upstream req message after = Normal a ->
  exists data, answers upstream req data /\ after data = Normal a.
Proof.
  unfold guarded, check_ok, answers. intros H.
  apply bind_Normal_inv in H as (res & Hres & H).
  destruct (ok res) eqn:Hok; simpl in H; [|discriminate].
  apply bind_Normal_inv in H as (data & Hjson & H).
  eauto 7.
Qed.

Lemma guarded_Throw_inv e :
  guarded upstream req message after = Throw e ->
  failure upstream req message after e.
Proof.
  unfold guarded, check_ok. intros H.
  destruct (upstream req) as [res|e0] eqn:Hres; simpl in H.
  - destruct (ok res) eqn:Hok; simpl in H.
    + apply body_malformed. exists res. repeat split; trivial.
      destruct (json res) as [data|e1] eqn:Hjson; simpl in H.
      * right. eauto.
      * left. congruence.
    + injection H as <-. apply status_not_ok. exists res. auto.
  - injection H as <-. now apply fetch_rejects.
Qed.

(** A [try] block that calls [fetch] and then computes: one request, and the
    completion of [guarded]. *)
Lemma fetch_then_pure :
  (res <<- fetch upstream req ;;
   pure (check_ok res message ;;; data <- json res ;; after data))
  = {| trace := [Requested req];
       result := guarded upstream req message after |}.
Proof.
  unfold and_then, fetch, guarded. simpl.
  destruct (upstream req) as [res|e]; reflexivity.
Qed.

Lemma result_fall_back (body : outcome A) label fallback :
  result (try_catch body (fall_back label fallback))
  = recover fallback (result body).
Proof. unfold try_catch. destruct body as [tr [a|e]]; reflexivity. Qed.

Lemma result_rethrow (body : outcome A) label :
  result (try_catch body (rethrow label)) = result body.
Proof. unfold try_catch. destruct body as [tr [a|e]]; reflexivity. Qed.

Lemma recover_never_throws fallback (c : completion A) :
  exists v, recover fallback c = Normal v.
Proof. destruct c; simpl; eauto. Qed.

End GuardedFacts.

(** ** The wrappers, each as its [try] block and its [catch] *)

Section WrapperFacts.

Variable token : option jsstring.
Variable upstream : request -> completion response.
Variable movieId : jsstring.

Lemma guarded_fall_back_result {A} req message
      (after : value -> completion A) label fallback :
  result (try_catch
            (res <<- fetch upstream req ;;
             pure (check_ok res message ;;; data <- json res ;; after data))
            (fall_back label fallback))
  = recover fallback (guarded upstream req message after).
Proof. now rewrite result_fall_back, fetch_then_pure. Qed.

Lemma recovered_falls_back {A} req message (after : value -> completion A)
      (o : outcome A) fallback :
  result o = recover fallback (guarded upstream req message after) ->
  falls_back o fallback (failure upstream req message after).
Proof.
  intros Ho. split.
  - rewrite Ho. apply recover_never_throws.
  - intros e He. rewrite Ho.
    now rewrite (guarded_failure upstream _ req message after e He).
Qed.

Lemma recover_refused_malformed {A} (upstream' : request -> completion response)
      req message (after : value -> completion A) fallback e :
  refused upstream req -> malformed upstream' req after e ->
  recover fallback (guarded upstream req message after) = Normal fallback
  /\ recover fallback (guarded upstream' req message after)
     = Normal fallback.
Proof.
  intros Hr Hm. split.
  - now rewrite (guarded_failure upstream _ req message after _
                                 (status_not_ok upstream _ _ _ Hr)).
  - now rewrite (guarded_failure upstream' _ req message after _
                                 (body_malformed upstream' _ _ _ _ Hm)).
Qed.

Lemma fetchMoviesRecommendation_result :
  result (fetchMoviesRecommendation token upstream movieId)
  = recover [] (guarded upstream (recommendation_request token movieId)
                        "Failed to fetch movies recommendation"
                        (map_field "results" to_Movie)).
Proof. exact (guarded_fall_back_result _ _ (map_field _ _) _ _). Qed.

Lemma fetchTrendingMovies_result :
  result (fetchTrendingMovies token upstream)
  = recover [] (guarded upstream (trending_request token)
                        "Failed to fetch trending movies"
                        (map_field "results" to_Movie)).
Proof. exact (guarded_fall_back_result _ _ (map_field _ _) _ _). Qed.

Lemma fetchMovieDetail_result :
  result (fetchMovieDetail token upstream movieId)
  = guarded upstream (detail_request token movieId)
            "Failed to fetch movie detail" to_MovieDetail.
Proof.
  unfold fetchMovieDetail.
  change (fun error => console_error ?l error >>> pure (Throw error))
    with (@rethrow MovieDetail.t l).
  now rewrite result_rethrow, fetch_then_pure.
Qed.

Lemma fetchMovieCredits_result :
  result (fetchMovieCredits token upstream movieId)
  = recover [] (guarded upstream (credits_request token movieId)
                        "Failed to fetch movie credits"
                        (map_field "cast" to_Cast)).
Proof. exact (guarded_fall_back_result _ _ (map_field _ _) _ _). Qed.

Lemma fetchMovieTrailer_result :
  result (fetchMovieTrailer token upstream movieId)
  = recover Null (guarded upstream (trailer_request token movieId)
                          "Failed to fetch movie trailer" first_or_null).
Proof. exact (guarded_fall_back_result _ _ first_or_null _ _). Qed.

Lemma fetchMovieReviews_result :
  result (fetchMovieReviews token upstream movieId)
  = recover [] (guarded upstream (reviews_request token movieId)
                        "Failed to fetch movie reviews"
                        (map_field "results" to_Review)).
Proof. exact (guarded_fall_back_result _ _ (map_field _ _) _ _). Qed.

Lemma searchMovies_encoded query encoded :
  encodeURIComponent query = Normal encoded ->
  result (searchMovies token upstream query)
  = recover [] (guarded upstream (search_request token encoded)
                        search_failed (map_field "results" to_Movie))
  /\ requests (trace (searchMovies token upstream query))
     = [search_request token encoded].
Proof.
  intros H. unfold searchMovies, try_catch, and_then, fetch, guarded.
  simpl. rewrite H. simpl.
  destruct (upstream (search_request token encoded)) as [res|e]; simpl.
  - destruct (bind (check_ok res _) _); simpl; auto.
  - auto.
Qed.

Lemma searchMovies_not_encoded query e :
  encodeURIComponent query = Throw e ->
  searchMovies token upstream query
  = {| trace := [Logged "Error searching movies:" e];
       result := Normal [] |}.
Proof.
  intros H. unfold searchMovies, try_catch, and_then. simpl.
  rewrite H. reflexivity.
Qed.

End WrapperFacts.

(** ** Wrappers that map a list *)

Section ListWrappers.

Variable upstream : request -> completion response.
Variable B : Type.
Variable req : request.
Variable message field : string.
Variable f : value -> completion B.

Lemma listed_yields (o : outcome (list B)) items :
  result o = recover [] (guarded upstream req message (map_field field f)) ->
  lists upstream req field items -> Forall (maps f) items ->
  yields_mapped o f items.
Proof.
  intros Ho (data & Hdata & Hitems) Hall.
  destruct (map_elements_total f items Hall) as [outs Houts].
  exists outs. rewrite Ho.
  rewrite (guarded_answers upstream _ req message _ data Hdata).
  rewrite (map_field_Arr field f data items Hitems), Houts.
  apply map_elements_Forall2 in Houts.
  repeat split.
  - symmetry. eapply Forall2_length; eassumption.
  - now apply Forall2_option_map.
Qed.

Lemma listed_entry (o : outcome (list B)) item out :
  result o = recover [] (guarded upstream req message (map_field field f)) ->
  entry_of upstream req field o item out ->
  f item = Normal out.
Proof.
  intros Ho (items & outs & (data & Hdata & Hitems) & Hres & i & Hi & Hout).
  rewrite Ho in Hres.
  rewrite (guarded_answers upstream _ req message _ data Hdata) in Hres.
  rewrite (map_field_Arr field f data items Hitems) in Hres.
  destruct (map_elements f items) as [outs'|e] eqn:Hmap; simpl in Hres.
  - injection Hres as <-. apply map_elements_Forall2 in Hmap.
    exact (Forall2_nth_error _ _ _ Hmap i item out Hi Hout).
  - injection Hres as <-. now destruct i.
Qed.

End ListWrappers.

(** ** The callbacks, field by field *)

Lemma to_Movie_fields movie m :
  to_Movie movie = Normal m ->
  exists id,
    Get movie "id" = Normal id
    /\ call_toString id = Normal (Movie.id m)
    /\ Get movie "title" = Normal (Movie.title m)
    /\ exists poster s,
        Get movie "poster_path" = Normal poster
        /\ ToString poster = Normal s
        /\ Movie.image m = image_base ++ s
        /\ Get movie "vote_average" = Normal (Movie.rating m).
Proof.
  unfold to_Movie. intros H.
  apply bind_Normal_inv in H as (id & Hid & H).
  apply bind_Normal_inv in H as (ids & Hids & H).
  apply bind_Normal_inv in H as (title & Htitle & H).
  apply bind_Normal_inv in H as (poster & Hposter & H).
  apply bind_Normal_inv in H as (s & Hs & H).
  apply bind_Normal_inv in H as (vote & Hvote & H).
  injection H as <-. simpl. eauto 10.
Qed.

(** On an item of the declared upstream shape the callback does not throw. *)
Lemma to_Movie_on_TMDBMovie movie id title poster_path vote_average :
  Get movie "id" = Normal (Num id) ->
  Get movie "title" = Normal title ->
  Get movie "poster_path" = Normal (Str poster_path) ->
  Get movie "vote_average" = Normal vote_average ->
  to_Movie movie
  = Normal {| Movie.id := Number_toString id;
              Movie.title := title;
              Movie.image := image_base ++ poster_path;
              Movie.rating := vote_average |}.
Proof.
  intros Hid Htitle Hposter Hvote. unfold to_Movie.
  now rewrite Hid, Htitle, Hposter, Hvote.
Qed.

Lemma to_MovieDetail_fields data d :
  to_MovieDetail data = Normal d ->
  exists id,
    Get data "id" = Normal id
    /\ call_toString id = Normal (MovieDetail.id d)
    /\ Get data "title" = Normal (MovieDetail.title d)
    /\ exists poster s,
        Get data "poster_path" = Normal poster
        /\ ToString poster = Normal s
        /\ MovieDetail.image d = image_base ++ s
        /\ Get data "vote_average" = Normal (MovieDetail.rating d).
Proof.
  unfold to_MovieDetail. intros H.
  apply bind_Normal_inv in H as (id & Hid & H).
  apply bind_Normal_inv in H as (ids & Hids & H).
  apply bind_Normal_inv in H as (title & Htitle & H).
  apply bind_Normal_inv in H as (poster & Hposter & H).
  apply bind_Normal_inv in H as (s & Hs & H).
  apply bind_Normal_inv in H as (vote & Hvote & H).
  apply bind_Normal_inv in H as (overview & Hoverview & H).
  apply bind_Normal_inv in H as (release & Hrelease & H).
  apply bind_Normal_inv in H as (runtime & Hruntime & H).
  apply bind_Normal_inv in H as (genres & Hgenres & H).
  apply bind_Normal_inv in H as (languages & Hlanguages & H).
  injection H as <-. simpl. eauto 10.
Qed.

Lemma to_Cast_fields cast c :
  to_Cast cast = Normal c ->
  exists id,
    Get cast "id" = Normal id /\ call_toString id = Normal (Cast.id c).
Proof.
  unfold to_Cast. intros H.
  apply bind_Normal_inv in H as (id & Hid & H).
  apply bind_Normal_inv in H as (ids & Hids & H).
  apply bind_Normal_inv in H as (path & Hpath & H).
  apply bind_Normal_inv in H as (name & Hname & H).
  apply bind_Normal_inv in H as (character & Hcharacter & H).
  apply bind_Normal_inv in H as (known & Hknown & H).
  injection H as <-. simpl. eauto.
Qed.

Lemma to_Review_id review r :
  to_Review review = Normal r -> Get review "id" = Normal (Review.id r).
Proof.
  unfold to_Review. intros H.
  apply bind_Normal_inv in H as (id & Hid & H).
  apply bind_Normal_inv in H as (author & Hauthor & H).
  apply bind_Normal_inv in H as (content & Hcontent & H).
  apply bind_Normal_inv in H as (created & Hcreated & H).
  apply bind_Normal_inv in H as (url & Hurl & H).
  apply bind_Normal_inv in H as (details & Hdetails & H).
  apply bind_Normal_inv in H as (rating & Hrating & H).
  apply bind_Normal_inv in H as (details' & Hdetails' & H).
  apply bind_Normal_inv in H as (avatar & Havatar & H).
  injection H as <-. exact Hid.
Qed.

Section EntryFacts.

Variable token : option jsstring.
Variable upstream : request -> completion response.
Variable movieId query : jsstring.

Lemma movie_entry_to_Movie item m :
  movie_entry token upstream movieId query item m -> to_Movie item = Normal m.
Proof.
  intros [H | [H | (encoded & Henc & H)]].
  - eapply listed_entry; [apply fetchTrendingMovies_result | exact H].
  - eapply listed_entry; [apply fetchMoviesRecommendation_result | exact H].
  - eapply listed_entry; [|exact H].
    apply (searchMovies_encoded token upstream query encoded Henc).
Qed.

Lemma cast_entry_to_Cast item c :
  cast_entry token upstream movieId item c -> to_Cast item = Normal c.
Proof.
  intros H. eapply listed_entry; [apply fetchMovieCredits_result | exact H].
Qed.

Lemma review_entry_to_Review item r :
  review_entry token upstream movieId item r -> to_Review item = Normal r.
Proof.
  intros H. eapply listed_entry; [apply fetchMovieReviews_result | exact H].
Qed.

Lemma detail_entry_to_MovieDetail data d :
  detail_entry token upstream movieId data d ->
  to_MovieDetail data = Normal d.
Proof.
  intros [Hdata Hres]. rewrite fetchMovieDetail_result in Hres.
  now rewrite (guarded_answers upstream _ _ _ _ data Hdata) in Hres.
Qed.

End EntryFacts.

(** * The properties *)

(** ** Failures *)

(** C2.  None of the six wrappers other than [fetchMovieDetail] ever throws,
    and each returns its fallback (the empty list; null for the trailer)
    whenever its request fails: [fetch] rejects, the status is no success,
    the body does not parse, or reading and mapping the parsed body raises
    (and, for the search, whenever the query cannot be encoded). *)
Theorem fallback_wrappers_never_throw
  (token : option jsstring) (upstream : request -> completion response)
  (movieId query : jsstring) :
  falls_back (fetchTrendingMovies token upstream) []
    (failure upstream (trending_request token)
             "Failed to fetch trending movies"
             (map_field "results" to_Movie))
  /\ falls_back (fetchMoviesRecommendation token upstream movieId) []
       (failure upstream (recommendation_request token movieId)
                "Failed to fetch movies recommendation"
                (map_field "results" to_Movie))
  /\ falls_back (fetchMovieCredits token upstream movieId) []
       (failure upstream (credits_request token movieId)
                "Failed to fetch movie credits" (map_field "cast" to_Cast))
  /\ falls_back (fetchMovieTrailer token upstream movieId) Null
       (failure upstream (trailer_request token movieId)
                "Failed to fetch movie trailer" first_or_null)
  /\ falls_back (fetchMovieReviews token upstream movieId) []
       (failure upstream (reviews_request token movieId)
                "Failed to fetch movie reviews"
                (map_field "results" to_Review))
  /\ falls_back (searchMovies token upstream query) []
       (search_failure token upstream query).
Proof.
  split; [|split; [|split; [|split; [|split]]]];
    try (eapply recovered_falls_back;
         first [ apply fetchTrendingMovies_result
               | apply fetchMoviesRecommendation_result
               | apply fetchMovieCredits_result
               | apply fetchMovieTrailer_result
               | apply fetchMovieReviews_result ]).
  destruct (encodeURIComponent query) as [encoded|e0] eqn:Henc.
  - destruct (searchMovies_encoded token upstream query encoded Henc)
      as [Hres _].
    destruct (recovered_falls_back upstream _ _ _ _ _ Hres) as [Hv Hf].
    split; [exact Hv|].
    intros e [e' He' | encoded' e' He' Hfail]; [congruence|].
    apply (Hf e'). congruence.
  - rewrite (searchMovies_not_encoded token upstream query e0 Henc).
    unfold falls_back. simpl. split; [eauto | reflexivity].
Qed.

Lemma fallback_wrappers_never_throw_witness :
  result (fetchTrendingMovies Sample.token Sample.refuses) = Normal []
  /\ result (fetchMovieCredits Sample.token Sample.offline Sample.movieId)
     = Normal []
  /\ result (fetchMovieTrailer Sample.token Sample.garbles Sample.movieId)
     = Normal Null
  /\ result (fetchMovieReviews Sample.token (Sample.replies Sample.not_found)
                               Sample.movieId)
     = Normal []
  /\ result (searchMovies Sample.token (Sample.replies Sample.movies)
                          [55357%N])
     = Normal [].
Proof.
  split; [|split; [|split; [|split]]].
  - destruct (fallback_wrappers_never_throw
                Sample.token Sample.refuses Sample.movieId [])
      as ((_ & trending) & _).
    apply (trending (Error "Failed to fetch trending movies")).
    apply status_not_ok. eexists. split; reflexivity.
  - destruct (fallback_wrappers_never_throw
                Sample.token Sample.offline Sample.movieId [])
      as (_ & _ & (_ & credits) & _).
    apply (credits TypeError). apply fetch_rejects. reflexivity.
  - destruct (fallback_wrappers_never_throw
                Sample.token Sample.garbles Sample.movieId [])
      as (_ & _ & _ & (_ & trailer) & _).
    apply (trailer SyntaxError). apply body_malformed.
    eexists. split; [|split; [|left]]; reflexivity.
  - destruct (fallback_wrappers_never_throw
                Sample.token (Sample.replies Sample.not_found)
                Sample.movieId [])
      as (_ & _ & _ & _ & (_ & reviews) & _).
    apply (reviews TypeError). apply body_malformed.
    eexists. split; [|split; [|right; eexists; split]]; reflexivity.
  - destruct (fallback_wrappers_never_throw
                Sample.token (Sample.replies Sample.movies)
                Sample.movieId [55357%N])
      as (_ & _ & _ & _ & _ & (_ & search)).
    apply (search URIError). apply query_not_encoded. reflexivity.
Defined.

(** C3.  [fetchMovieDetail] throws whenever its request fails ([fetch]
    rejects, the status is no success, the body does not parse, reading and
    mapping it raises): the exception of the failure reaches the caller, and
    no [MovieDetail] is returned; and it throws on these failures only.  No
    other wrapper throws. *)
Theorem only_detail_rethrows
  (token : option jsstring) (upstream : request -> completion response)
  (movieId query : jsstring) :
  (forall e,
      failure upstream (detail_request token movieId)
              "Failed to fetch movie detail" to_MovieDetail e ->
      result (fetchMovieDetail token upstream movieId) = Throw e
      /\ forall d,
          result (fetchMovieDetail token upstream movieId) <> Normal d)
  /\ (forall e,
         result (fetchMovieDetail token upstream movieId) = Throw e ->
         failure upstream (detail_request token movieId)
                 "Failed to fetch movie detail" to_MovieDetail e)
  /\ (forall e,
         result (fetchTrendingMovies token upstream) <> Throw e
         /\ result (fetchMoviesRecommendation token upstream movieId)
            <> Throw e
         /\ result (fetchMovieCredits token upstream movieId) <> Throw e
         /\ result (fetchMovieTrailer token upstream movieId) <> Throw e
         /\ result (fetchMovieReviews token upstream movieId) <> Throw e
         /\ result (searchMovies token upstream query) <> Throw e).
Proof.
  split; [|split].
  - intros e He. rewrite fetchMovieDetail_result.
    rewrite (guarded_failure upstream _ _ _ _ e He).
    split; [reflexivity | discriminate].
  - intros e. rewrite fetchMovieDetail_result. apply guarded_Throw_inv.
  - intros e.
    rewrite fetchTrendingMovies_result, fetchMoviesRecommendation_result,
      fetchMovieCredits_result, fetchMovieTrailer_result,
      fetchMovieReviews_result.
    split; [|split; [|split; [|split; [|split]]]];
      try apply recover_not_Throw.
    destruct (encodeURIComponent query) as [encoded|e0] eqn:Henc.
    + destruct (searchMovies_encoded token upstream query encoded Henc)
        as [-> _].
      apply recover_not_Throw.
    + now rewrite (searchMovies_not_encoded token upstream query e0 Henc).
Qed.

Lemma only_detail_rethrows_witness :
  result (fetchMovieDetail Sample.token Sample.refuses Sample.movieId)
  = Throw (Error "Failed to fetch movie detail")
  /\ result (fetchMovieDetail Sample.token Sample.offline Sample.movieId)
     = Throw TypeError.
Proof.
  split.
  - destruct (only_detail_rethrows
                Sample.token Sample.refuses Sample.movieId [])
      as (detail & _).
    apply detail. apply status_not_ok. eexists. split; reflexivity.
  - destruct (only_detail_rethrows
                Sample.token Sample.offline Sample.movieId [])
      as (detail & _).
    apply detail. apply fetch_rejects. reflexivity.
Defined.

(** C7.  A body that does not parse, or that parses to something on which
    reading and mapping raises, has for each wrapper the outcome that a
    status that is no success has: the fallback for the six wrappers that
    fall back, a thrown exception for [fetchMovieDetail].  [upstream] is a
    platform that answers with such a status, [upstream'] one that answers
    with such a body. *)
Theorem malformed_body_like_bad_status
  (token : option jsstring)
  (upstream upstream' : request -> completion response)
  (movieId query encoded : jsstring) (e : exn) :
  (refused upstream (trending_request token) ->
   malformed upstream' (trending_request token)
             (map_field "results" to_Movie) e ->
   result (fetchTrendingMovies token upstream) = Normal []
   /\ result (fetchTrendingMovies token upstream') = Normal [])
  /\ (refused upstream (recommendation_request token movieId) ->
      malformed upstream' (recommendation_request token movieId)
                (map_field "results" to_Movie) e ->
      result (fetchMoviesRecommendation token upstream movieId) = Normal []
      /\ result (fetchMoviesRecommendation token upstream' movieId)
         = Normal [])
  /\ (refused upstream (credits_request token movieId) ->
      malformed upstream' (credits_request token movieId)
                (map_field "cast" to_Cast) e ->
      result (fetchMovieCredits token upstream movieId) = Normal []
      /\ result (fetchMovieCredits token upstream' movieId) = Normal [])
  /\ (refused upstream (trailer_request token movieId) ->
      malformed upstream' (trailer_request token movieId) first_or_null e ->
      result (fetchMovieTrailer token upstream movieId) = Normal Null
      /\ result (fetchMovieTrailer token upstream' movieId) = Normal Null)
  /\ (refused upstream (reviews_request token movieId) ->
      malformed upstream' (reviews_request token movieId)
                (map_field "results" to_Review) e ->
      result (fetchMovieReviews token upstream movieId) = Normal []
      /\ result (fetchMovieReviews token upstream' movieId) = Normal [])
  /\ (encodeURIComponent query = Normal encoded ->
      refused upstream (search_request token encoded) ->
      malformed upstream' (search_request token encoded)
                (map_field "results" to_Movie) e ->
      result (searchMovies token upstream query) = Normal []
      /\ result (searchMovies token upstream' query) = Normal [])
  /\ (refused upstream (detail_request token movieId) ->
      malformed upstream' (detail_request token movieId) to_MovieDetail e ->
      result (fetchMovieDetail token upstream movieId)
      = Throw (Error "Failed to fetch movie detail")
      /\ result (fetchMovieDetail token upstream' movieId) = Throw e).
Proof.
  split; [|split; [|split; [|split; [|split; [|split]]]]].
  - intros Hr Hm. rewrite !fetchTrendingMovies_result.
    eapply recover_refused_malformed; eassumption.
  - intros Hr Hm. rewrite !fetchMoviesRecommendation_result.
    eapply recover_refused_malformed; eassumption.
  - intros Hr Hm. rewrite !fetchMovieCredits_result.
    eapply recover_refused_malformed; eassumption.
  - intros Hr Hm. rewrite !fetchMovieTrailer_result.
    eapply recover_refused_malformed; eassumption.
  - intros Hr Hm. rewrite !fetchMovieReviews_result.
    eapply recover_refused_malformed; eassumption.
  - intros Henc Hr Hm.
    destruct (searchMovies_encoded token upstream query encoded Henc)
      as [-> _].
    destruct (searchMovies_encoded token upstream' query encoded Henc)
      as [-> _].
    eapply recover_refused_malformed; eassumption.
  - intros Hr Hm. rewrite !fetchMovieDetail_result. split.
    + apply guarded_failure. now apply status_not_ok.
    + apply guarded_failure. now apply body_malformed.
Qed.

Lemma malformed_body_like_bad_status_witness :
  (result (fetchMovieReviews Sample.token Sample.refuses Sample.movieId)
   = Normal []
   /\ result (fetchMovieReviews Sample.token Sample.garbles Sample.movieId)
      = Normal [])
  /\ (result (fetchMovieDetail Sample.token Sample.refuses Sample.movieId)
      = Throw (Error "Failed to fetch movie detail")
      /\ result (fetchMovieDetail Sample.token
                                  (Sample.replies Sample.not_found)
                                  Sample.movieId)
         = Throw TypeError).
Proof.
  split.
  - destruct (malformed_body_like_bad_status
                Sample.token Sample.refuses Sample.garbles
                Sample.movieId [] [] SyntaxError)
      as (_ & _ & _ & _ & reviews & _).
    apply reviews.
    + eexists. split; reflexivity.
    + eexists. split; [|split; [|left]]; reflexivity.
  - destruct (malformed_body_like_bad_status
                Sample.token Sample.refuses (Sample.replies Sample.not_found)
                Sample.movieId [] [] TypeError)
      as (_ & _ & _ & _ & _ & _ & detail).
    apply detail.
    + eexists. split; reflexivity.
    + eexists. split; [|split; [|right; eexists; split]]; reflexivity.
Defined.

(** ** The trailer *)

(** C4.  When the response to [fetchMovieTrailer] has a success status and
    its body holds a list under [results]: if the list is empty the result
    is null; if it starts with an object, as the entries of the upstream
    list are, the result is that first object itself, with its [key] and
    [site], whatever follows it in the list.  (The first element is returned
    through [||]: what holds of an object holds of any first element that
    is truthy.) *)
Theorem trailer_is_first_or_null
  (token : option jsstring) (upstream : request -> completion response)
  (movieId : jsstring) (items : list value) :
  lists upstream (trailer_request token movieId) "results" items ->
  (items = [] ->
   result (fetchMovieTrailer token upstream movieId) = Normal Null)
  /\ (forall props rest,
         items = Obj props :: rest ->
         result (fetchMovieTrailer token upstream movieId)
         = Normal (Obj props))
  /\ (forall first rest,
         items = first :: rest -> ToBoolean first = true ->
         result (fetchMovieTrailer token upstream movieId) = Normal first).
Proof.
  intros (data & Hdata & Hitems). rewrite fetchMovieTrailer_result.
  rewrite (guarded_answers upstream _ _ _ _ data Hdata).
  unfold first_or_null. rewrite Hitems. simpl.
  split; [|split].
  - now intros ->.
  - now intros props rest ->.
  - intros first rest -> Htruthy. unfold or_else. now rewrite Htruthy.
Qed.

Lemma trailer_is_first_or_null_witness :
  result (fetchMovieTrailer Sample.token (Sample.replies Sample.videos)
                            Sample.movieId)
  = Normal Sample.teaser
  /\ result (fetchMovieTrailer Sample.token (Sample.replies Sample.no_videos)
                               Sample.movieId)
     = Normal Null.
Proof.
  split.
  - destruct (trailer_is_first_or_null
                Sample.token (Sample.replies Sample.videos) Sample.movieId
                [Sample.teaser; Sample.featurette])
      as (_ & first & _).
    + replied.
    + eapply first. reflexivity.
  - destruct (trailer_is_first_or_null
                Sample.token (Sample.replies Sample.no_videos) Sample.movieId
                [])
      as (none & _).
    + replied.
    + apply none. reflexivity.
Defined.

(** ** Fields *)

(** C5.  For a review that [fetchMovieReviews] returned: if the upstream
    review has no [author_details] object (the property is absent, null, or
    anything that is no object), the returned [rating] and [avatar_path] are
    null; if it has one that holds a [rating], 7 say, the returned [rating]
    is that rating. *)
Theorem review_rating_and_avatar
  (token : option jsstring) (upstream : request -> completion response)
  (movieId : jsstring) (review : value) (r : Review.t) :
  review_entry token upstream movieId review r ->
  (forall d,
      Get review "author_details" = Normal d ->
      (forall details, d <> Obj details) ->
      Review.rating r = Null /\ Review.avatar_path r = Null)
  /\ (forall details x,
         Get review "author_details" = Normal (Obj details) ->
         own_property (js "rating") details = Some x ->
         x <> Undefined ->
         Review.rating r = x).
Proof.
  intros H. apply review_entry_to_Review in H. unfold to_Review in H.
  destruct (Get review "id") as [id|] eqn:Hid;
    [|destruct review; discriminate].
  assert (Hget : forall name, exists v, Get review name = Normal v)
    by (intros name; destruct review; try discriminate; simpl; eauto).
  destruct (Hget "author"%string) as [author Hauthor].
  destruct (Hget "content"%string) as [content Hcontent].
  destruct (Hget "created_at"%string) as [created_at Hcreated].
  destruct (Hget "url"%string) as [url Hurl].
  destruct (Hget "author_details"%string) as [d Hd].
  rewrite Hauthor, Hcontent, Hcreated, Hurl, Hd in H. simpl in H.
  split.
  - intros d' Hd' Hno. rewrite Hd in Hd'. injection Hd' as <-.
    destruct d as [| | | | | |details]; simpl in H;
      try (injection H as <-; simpl; auto).
    now destruct (Hno details).
  - intros details x Hd' Hx Hdef. rewrite Hd in Hd'. injection Hd' as ->.
    simpl in H. rewrite Hx in H.
    injection H as <-. simpl. destruct x; trivial. now destruct Hdef.
Qed.

Lemma review_rating_and_avatar_witness :
  (exists r,
      review_entry Sample.token (Sample.replies Sample.reviews)
                   Sample.movieId Sample.rated r
      /\ Review.rating r = Num (Int 7))
  /\ (exists r,
         review_entry Sample.token (Sample.replies Sample.reviews)
                      Sample.movieId Sample.anonymous r
         /\ Review.rating r = Null /\ Review.avatar_path r = Null).
Proof.
  split; eexists; (split; [entered 0%nat || entered 1%nat|]).
  - eapply (review_rating_and_avatar
              Sample.token (Sample.replies Sample.reviews) Sample.movieId
              Sample.rated).
    + entered 0%nat.
    + reflexivity.
    + reflexivity.
    + discriminate.
  - eapply (review_rating_and_avatar
              Sample.token (Sample.replies Sample.reviews) Sample.movieId
              Sample.anonymous).
    + entered 1%nat.
    + reflexivity.
    + discriminate.
Defined.

(** C6.  For a summary returned by the trending, recommendation or search
    wrapper, and for a detail returned by [fetchMovieDetail], the [image] is
    the fixed prefix followed by the upstream [poster_path] as a template
    literal renders it: a string verbatim, the empty string included, and
    null as the four letters of "null".  Nothing is validated, nothing is
    left out. *)
Theorem image_is_prefix_and_poster_path
  (token : option jsstring) (upstream : request -> completion response)
  (movieId query : jsstring) :
  (forall item m poster,
      movie_entry token upstream movieId query item m ->
      Get item "poster_path" = Normal poster ->
      (forall s, poster = Str s ->
                 Movie.image m = js "https://image.tmdb.org/t/p/w500" ++ s)
      /\ (poster = Null ->
          Movie.image m = js "https://image.tmdb.org/t/p/w500null")
      /\ exists s,
          ToString poster = Normal s
          /\ Movie.image m = js "https://image.tmdb.org/t/p/w500" ++ s)
  /\ (forall data d poster,
         detail_entry token upstream movieId data d ->
         Get data "poster_path" = Normal poster ->
         (forall s, poster = Str s ->
                    MovieDetail.image d
                    = js "https://image.tmdb.org/t/p/w500" ++ s)
         /\ (poster = Null ->
             MovieDetail.image d = js "https://image.tmdb.org/t/p/w500null")
         /\ exists s,
             ToString poster = Normal s
             /\ MovieDetail.image d
                = js "https://image.tmdb.org/t/p/w500" ++ s).
Proof.
  split.
  - intros item m poster H Hposter. apply movie_entry_to_Movie in H.
    destruct (to_Movie_fields item m H)
      as (id & Hid & _ & _ & poster' & s & Hposter' & Hs & Himage & _).
    rewrite Hposter in Hposter'. injection Hposter' as <-.
    rewrite Himage. split; [|split].
    + intros s' ->. simpl in Hs. now injection Hs as <-.
    + intros ->. simpl in Hs. now injection Hs as <-.
    + now exists s.
  - intros data d poster H Hposter. apply detail_entry_to_MovieDetail in H.
    destruct (to_MovieDetail_fields data d H)
      as (id & Hid & _ & _ & poster' & s & Hposter' & Hs & Himage & _).
    rewrite Hposter in Hposter'. injection Hposter' as <-.
    rewrite Himage. split; [|split].
    + intros s' ->. simpl in Hs. now injection Hs as <-.
    + intros ->. simpl in Hs. now injection Hs as <-.
    + now exists s.
Qed.

Lemma image_is_prefix_and_poster_path_witness :
  (exists m,
      movie_entry Sample.token (Sample.replies Sample.movies)
                  Sample.movieId [] Sample.unreleased m
      /\ Movie.image m = js "https://image.tmdb.org/t/p/w500null")
  /\ (exists d,
         detail_entry Sample.token (Sample.replies Sample.detail)
                      Sample.movieId Sample.detail d
         /\ MovieDetail.image d = js "https://image.tmdb.org/t/p/w500" ++ []).
Proof.
  split; eexists.
  - split; [left; entered 1%nat|].
    destruct (image_is_prefix_and_poster_path
                Sample.token (Sample.replies Sample.movies)
                Sample.movieId [])
      as (summary & _).
    eapply summary.
    + left; entered 1%nat.
    + reflexivity.
    + reflexivity.
  - split; [split; [eexists; split; [|split]; reflexivity | reflexivity]|].
    destruct (image_is_prefix_and_poster_path
                Sample.token (Sample.replies Sample.detail)
                Sample.movieId [])
      as (_ & detail).
    eapply detail.
    + split; [eexists; split; [|split]; reflexivity | reflexivity].
    + reflexivity.
    + reflexivity.
Defined.

(** C8.  For a summary returned by the trending, recommendation or search
    wrapper, and for a detail returned by [fetchMovieDetail], the [rating]
    is the upstream [vote_average], the very value: no arithmetic is done
    on it. *)
Theorem rating_is_vote_average
  (token : option jsstring) (upstream : request -> completion response)
  (movieId query : jsstring) :
  (forall item m,
      movie_entry token upstream movieId query item m ->
      Get item "vote_average" = Normal (Movie.rating m))
  /\ (forall data d,
         detail_entry token upstream movieId data d ->
         Get data "vote_average" = Normal (MovieDetail.rating d)).
Proof.
  split.
  - intros item m H. apply movie_entry_to_Movie in H.
    destruct (to_Movie_fields item m H)
      as (id & _ & _ & _ & poster & s & _ & _ & _ & Hvote).
    exact Hvote.
  - intros data d H. apply detail_entry_to_MovieDetail in H.
    destruct (to_MovieDetail_fields data d H)
      as (id & _ & _ & _ & poster & s & _ & _ & _ & Hvote).
    exact Hvote.
Qed.

Lemma rating_is_vote_average_witness :
  (exists m,
      movie_entry Sample.token (Sample.replies Sample.movies)
                  Sample.movieId [] Sample.fight_club m
      /\ Normal (Num (Real (js "8.4"))) = Normal (Movie.rating m))
  /\ (exists d,
         detail_entry Sample.token (Sample.replies Sample.detail)
                      Sample.movieId Sample.detail d
         /\ Normal (Num (Real (js "8.4"))) = Normal (MovieDetail.rating d)).
Proof.
  split; eexists.
  - split; [left; entered 0%nat|].
    destruct (rating_is_vote_average
                Sample.token (Sample.replies Sample.movies)
                Sample.movieId [])
      as (summary & _).
    apply (summary Sample.fight_club). left; entered 0%nat.
  - split; [split; [eexists; split; [|split]; reflexivity | reflexivity]|].
    destruct (rating_is_vote_average
                Sample.token (Sample.replies Sample.detail)
                Sample.movieId [])
      as (_ & detail).
    apply (detail Sample.detail).
    split; [eexists; split; [|split]; reflexivity | reflexivity].
Defined.

(** C9.  The [id] of a summary, of a detail and of a cast entry that the
    wrappers return is what [toString()] answers on the upstream [id]; for a
    numeric [id], the digits of the number in radix 10.  The [id] of a
    returned review is the upstream [id] itself, unchanged. *)
Theorem ids_are_rendered_except_for_reviews
  (token : option jsstring) (upstream : request -> completion response)
  (movieId query : jsstring) :
  (forall item m,
      movie_entry token upstream movieId query item m ->
      exists id,
        Get item "id" = Normal id
        /\ call_toString id = Normal (Movie.id m)
        /\ forall n, id = Num n -> Movie.id m = Number_toString n)
  /\ (forall data d,
         detail_entry token upstream movieId data d ->
         exists id,
           Get data "id" = Normal id
           /\ call_toString id = Normal (MovieDetail.id d)
           /\ forall n, id = Num n -> MovieDetail.id d = Number_toString n)
  /\ (forall item c,
         cast_entry token upstream movieId item c ->
         exists id,
           Get item "id" = Normal id
           /\ call_toString id = Normal (Cast.id c)
           /\ forall n, id = Num n -> Cast.id c = Number_toString n)
  /\ (forall item r,
         review_entry token upstream movieId item r ->
         Get item "id" = Normal (Review.id r)).
Proof.
  split; [|split; [|split]].
  - intros item m H. apply movie_entry_to_Movie in H.
    destruct (to_Movie_fields item m H) as (id & Hid & Hcall & _).
    exists id. repeat split; trivial.
    intros n ->. simpl in Hcall. now injection Hcall.
  - intros data d H. apply detail_entry_to_MovieDetail in H.
    destruct (to_MovieDetail_fields data d H) as (id & Hid & Hcall & _).
    exists id. repeat split; trivial.
    intros n ->. simpl in Hcall. now injection Hcall.
  - intros item c H. apply cast_entry_to_Cast in H.
    destruct (to_Cast_fields item c H) as (id & Hid & Hcall).
    exists id. repeat split; trivial.
    intros n ->. simpl in Hcall. now injection Hcall.
  - intros item r H. apply review_entry_to_Review in H.
    now apply to_Review_id.
Qed.

Lemma ids_are_rendered_except_for_reviews_witness :
  (exists m,
      movie_entry Sample.token (Sample.replies Sample.movies)
                  Sample.movieId [] Sample.fight_club m
      /\ call_toString (Num (Int 550)) = Normal (Movie.id m)
      /\ Movie.id m = js "550")
  /\ (exists c,
         cast_entry Sample.token (Sample.replies Sample.credits)
                    Sample.movieId Sample.norton c
         /\ call_toString (Num (Int 819)) = Normal (Cast.id c)
         /\ Cast.id c = js "819")
  /\ (exists r,
         review_entry Sample.token (Sample.replies Sample.reviews)
                      Sample.movieId Sample.rated r
         /\ Normal (Str (js "5b1c13b9c3a36848f2026384"))
            = Normal (Review.id r)).
Proof.
  split; [|split]; eexists.
  - split; [left; entered 0%nat|].
    destruct (ids_are_rendered_except_for_reviews
                Sample.token (Sample.replies Sample.movies)
                Sample.movieId [])
      as (summary & _).
    match goal with
    | |- context [Movie.id ?m] =>
        destruct (summary Sample.fight_club m) as (id & Hid & Hcall & Hnum)
    end.
    + left; entered 0%nat.
    + injection Hid as <-. split; [exact Hcall | exact (Hnum _ eq_refl)].
  - split; [entered 0%nat|].
    destruct (ids_are_rendered_except_for_reviews
                Sample.token (Sample.replies Sample.credits)
                Sample.movieId [])
      as (_ & _ & cast & _).
    match goal with
    | |- context [Cast.id ?c] =>
        destruct (cast Sample.norton c) as (id & Hid & Hcall & Hnum)
    end.
    + entered 0%nat.
    + injection Hid as <-. split; [exact Hcall | exact (Hnum _ eq_refl)].
  - split; [entered 0%nat|].
    destruct (ids_are_rendered_except_for_reviews
                Sample.token (Sample.replies Sample.reviews)
                Sample.movieId [])
      as (_ & _ & _ & review).
    apply (review Sample.rated). entered 0%nat.
Defined.

(** ** The search request *)

Lemma uri_unreserved_ascii c : uri_unreserved c = true -> (c < 128)%N.
Proof.
  unfold uri_unreserved, existsb.
  rewrite !orb_true_iff, !andb_true_iff, !N.leb_le, !N.eqb_eq. lia.
Qed.

Lemma uri_unreserved_not_delimiter c :
  uri_unreserved c = true -> ~ In c (js "&=?#+/ ").
Proof.
  unfold uri_unreserved, existsb. simpl.
  rewrite !orb_true_iff, !andb_true_iff, !N.leb_le, !N.eqb_eq. lia.
Qed.

Lemma hex_digit_unreserved n : uri_unreserved (hex_digit n) = true.
Proof.
  unfold hex_digit.
  assert (H : (n mod 16 < 16)%N) by (apply N.mod_lt; discriminate).
  destruct (n mod 16)%N as [|p]; [reflexivity|].
  do 4 (destruct p as [p|p|]; try reflexivity); lia.
Qed.

Lemma percent_safe octet : Forall uri_safe (percent octet).
Proof.
  unfold percent.
  constructor; [now right|].
  constructor; [left; apply hex_digit_unreserved|].
  constructor; [left; apply hex_digit_unreserved|].
  constructor.
Qed.

Lemma escape_safe cp : Forall uri_safe (escape cp).
Proof.
  unfold escape. induction (utf8 cp) as [|octet octets IH].
  - constructor.
  - cbn [map concat]. apply Forall_app.
    split; [apply percent_safe | exact IH].
Qed.

Lemma encodeURIComponent_safe n :
  forall s encoded,
    length s <= n -> encodeURIComponent s = Normal encoded ->
    Forall uri_safe encoded.
Proof.
  induction n as [|n IH]; intros [|c rest] encoded Hlen H; simpl in *;
    try (injection H as <-; constructor); try lia.
  destruct (uri_unreserved c) eqn:Hc.
  - apply bind_Normal_inv in H as (tail & Htail & [= <-]).
    constructor; [now left | apply (IH rest); [lia | exact Htail]].
  - destruct (trailing_surrogate c); [discriminate|].
    destruct (leading_surrogate c).
    + destruct rest as [|d rest']; [discriminate|].
      destruct (trailing_surrogate d); [|discriminate].
      apply bind_Normal_inv in H as (tail & Htail & [= <-]).
      apply Forall_app. split; [apply escape_safe|].
      apply (IH rest'); [simpl in Hlen; lia | exact Htail].
    + apply bind_Normal_inv in H as (tail & Htail & [= <-]).
      apply Forall_app. split; [apply escape_safe|].
      apply (IH rest); [lia | exact Htail].
Qed.

Lemma unreserved_no_surrogate c :
  uri_unreserved c = true ->
  leading_surrogate c = false /\ trailing_surrogate c = false.
Proof.
  intros H. apply uri_unreserved_ascii in H.
  unfold leading_surrogate, trailing_surrogate.
  rewrite !andb_false_iff, !N.leb_gt. lia.
Qed.

Lemma encodeURIComponent_total n :
  forall s,
    length s <= n -> isWellFormed s = true ->
    exists encoded, encodeURIComponent s = Normal encoded.
Proof.
  induction n as [|n IH]; intros [|c rest] Hlen Hwf; simpl in *;
    eauto; try lia.
  destruct (uri_unreserved c) eqn:Hc.
  - destruct (unreserved_no_surrogate c Hc) as [Hl Ht].
    rewrite Hl, Ht in Hwf. simpl in Hwf.
    destruct (IH rest) as [tail ->]; [lia | exact Hwf |]. simpl. eauto.
  - destruct (leading_surrogate c) eqn:Hl.
    + assert (Ht : trailing_surrogate c = false).
      { revert Hl. unfold leading_surrogate, trailing_surrogate.
        rewrite andb_true_iff, andb_false_iff, !N.leb_le, !N.leb_gt. lia. }
      rewrite Ht. destruct rest as [|d rest']; [discriminate|].
      apply andb_true_iff in Hwf as [-> Hwf].
      destruct (IH rest') as [tail ->]; [simpl in Hlen; lia | exact Hwf |].
      simpl. eauto.
    + apply andb_true_iff in Hwf as [Ht Hwf].
      apply negb_true_iff in Ht. rewrite Ht.
      destruct (IH rest) as [tail ->]; [lia | exact Hwf |]. simpl. eauto.
Qed.

(** C10 as stated fails on a query that holds a surrogate without its
    partner: [encodeURIComponent] throws on it, no URL is built and no
    request is sent, and the wrapper returns the empty list. *)
Lemma search_unpaired_surrogate_sends_nothing :
  encodeURIComponent [55357%N] = Throw URIError
  /\ searchMovies Sample.token (Sample.replies Sample.movies) [55357%N]
     = {| trace := [Logged "Error searching movies:" URIError];
          result := Normal [] |}
  /\ ~ exists encoded,
         requests (trace (searchMovies Sample.token
                                       (Sample.replies Sample.movies)
                                       [55357%N]))
         = [search_request Sample.token encoded].
Proof.
  split; [reflexivity | split; [reflexivity|]].
  intros [encoded H]. discriminate H.
Qed.

(** * Further properties of the wrappers *)

(** ** Requests and console lines *)

Section TraceFacts.

Variable token : option jsstring.
Variable upstream : request -> completion response.
Variable movieId : jsstring.

Lemma trace_fall_back {A} (body : outcome A) label fallback :
  trace (try_catch body (fall_back label fallback))
  = trace body ++ logged label (result body).
Proof.
  unfold try_catch. destruct body as [tr [a|e]]; simpl.
  - now rewrite app_nil_r.
  - reflexivity.
Qed.

Lemma trace_rethrow {A} (body : outcome A) label :
  trace (try_catch body (rethrow label))
  = trace body ++ logged label (result body).
Proof.
  unfold try_catch. destruct body as [tr [a|e]]; simpl.
  - now rewrite app_nil_r.
  - reflexivity.
Qed.

Lemma guarded_fall_back_trace {A} req message
      (after : value -> completion A) label fallback :
  trace (try_catch
           (res <<- fetch upstream req ;;
            pure (check_ok res message ;;; data <- json res ;; after data))
           (fall_back label fallback))
  = Requested req :: logged label (guarded upstream req message after).
Proof. now rewrite trace_fall_back, fetch_then_pure. Qed.

Lemma fetchMoviesRecommendation_trace :
  trace (fetchMoviesRecommendation token upstream movieId)
  = Requested (recommendation_request token movieId)
    :: logged "Error fetching movies recommendation:"
         (guarded upstream (recommendation_request token movieId)
                  "Failed to fetch movies recommendation"
                  (map_field "results" to_Movie)).
Proof. exact (guarded_fall_back_trace _ _ (map_field _ _) _ _). Qed.

Lemma fetchTrendingMovies_trace :
  trace (fetchTrendingMovies token upstream)
  = Requested (trending_request token)
    :: logged "Error fetching trending movies:"
         (guarded upstream (trending_request token)
                  "Failed to fetch trending movies"
                  (map_field "results" to_Movie)).
Proof. exact (guarded_fall_back_trace _ _ (map_field _ _) _ _). Qed.

Lemma fetchMovieDetail_trace :
  trace (fetchMovieDetail token upstream movieId)
  = Requested (detail_request token movieId)
    :: logged "Error fetching movie detail:"
         (guarded upstream (detail_request token movieId)
                  "Failed to fetch movie detail" to_MovieDetail).
Proof.
  unfold fetchMovieDetail.
  change (fun error => console_error ?l error >>> pure (Throw error))
    with (@rethrow MovieDetail.t l).
  now rewrite trace_rethrow, fetch_then_pure.
Qed.

Lemma fetchMovieCredits_trace :
  trace (fetchMovieCredits token upstream movieId)
  = Requested (credits_request token movieId)
    :: logged "Error fetching movie credits:"
         (guarded upstream (credits_request token movieId)
                  "Failed to fetch movie credits"
                  (map_field "cast" to_Cast)).
Proof. exact (guarded_fall_back_trace _ _ (map_field _ _) _ _). Qed.

Lemma fetchMovieTrailer_trace :
  trace (fetchMovieTrailer token upstream movieId)
  = Requested (trailer_request token movieId)
    :: logged "Error fetching movie trailer:"
         (guarded upstream (trailer_request token movieId)
                  "Failed to fetch movie trailer" first_or_null).
Proof. exact (guarded_fall_back_trace _ _ first_or_null _ _). Qed.

Lemma fetchMovieReviews_trace :
  trace (fetchMovieReviews token upstream movieId)
  = Requested (reviews_request token movieId)
    :: logged "Error fetching movie reviews:"
         (guarded upstream (reviews_request token movieId)
                  "Failed to fetch movie reviews"
                  (map_field "results" to_Review)).
Proof. exact (guarded_fall_back_trace _ _ (map_field _ _) _ _). Qed.

Lemma searchMovies_trace query encoded :
  encodeURIComponent query = Normal encoded ->
  trace (searchMovies token upstream query)
  = Requested (search_request token encoded)
    :: logged "Error searching movies:"
         (guarded upstream (search_request token encoded) search_failed
                  (map_field "results" to_Movie)).
Proof.
  intros H. unfold searchMovies, try_catch, and_then, fetch, guarded.
  simpl. rewrite H. simpl.
  destruct (upstream (search_request token encoded)) as [res|e]; simpl.
  - destruct (bind (check_ok res _) _); reflexivity.
  - reflexivity.
Qed.

Lemma requests_logged {A} req label (c : completion A) :
  requests (Requested req :: logged label c) = [req].
Proof. destruct c; reflexivity. Qed.

Lemma logged_failures_only {A} (o : outcome A) req message
      (after : value -> completion A) label :
  trace o
  = Requested req :: logged label (guarded upstream req message after) ->
  logs_failures_only upstream o req message after label.
Proof.
  intros Ho. split.
  - intros e He. rewrite Ho.
    now rewrite (guarded_failure upstream _ req message after e He).
  - intros data v Hdata Hv. rewrite Ho.
    rewrite (guarded_answers upstream _ req message after data Hdata).
    now rewrite Hv.
Qed.

End TraceFacts.

(** X1.  Each of the six wrappers other than [searchMovies] sends exactly
    one request, whatever the platform answers and whether or not a token
    is configured: to the trending endpoint, or to the endpoint of the
    movie, the id being put into the path as it is. *)
Theorem wrappers_send_one_request
  (token : option jsstring) (upstream : request -> completion response)
  (movieId : jsstring) :
  (exists req,
      requests (trace (fetchTrendingMovies token upstream)) = [req]
      /\ url req = js "https://api.themoviedb.org/3/trending/movie/week")
  /\ (exists req,
         requests (trace (fetchMoviesRecommendation token upstream movieId))
         = [req]
         /\ url req = js "https://api.themoviedb.org/3/movie/" ++ movieId
                      ++ js "/recommendations")
  /\ (exists req,
         requests (trace (fetchMovieDetail token upstream movieId)) = [req]
         /\ url req = js "https://api.themoviedb.org/3/movie/" ++ movieId)
  /\ (exists req,
         requests (trace (fetchMovieCredits token upstream movieId)) = [req]
         /\ url req = js "https://api.themoviedb.org/3/movie/" ++ movieId
                      ++ js "/credits")
  /\ (exists req,
         requests (trace (fetchMovieTrailer token upstream movieId)) = [req]
         /\ url req = js "https://api.themoviedb.org/3/movie/" ++ movieId
                      ++ js "/videos")
  /\ (exists req,
         requests (trace (fetchMovieReviews token upstream movieId)) = [req]
         /\ url req = js "https://api.themoviedb.org/3/movie/" ++ movieId
                      ++ js "/reviews").
Proof.
  split; [|split; [|split; [|split; [|split]]]].
  - exists (trending_request token).
    rewrite fetchTrendingMovies_trace, requests_logged. now split.
  - exists (recommendation_request token movieId).
    rewrite fetchMoviesRecommendation_trace, requests_logged. now split.
  - exists (detail_request token movieId).
    rewrite fetchMovieDetail_trace, requests_logged. now split.
  - exists (credits_request token movieId).
    rewrite fetchMovieCredits_trace, requests_logged. now split.
  - exists (trailer_request token movieId).
    rewrite fetchMovieTrailer_trace, requests_logged. now split.
  - exists (reviews_request token movieId).
    rewrite fetchMovieReviews_trace, requests_logged. now split.
Qed.

(** X2.  Every request that a wrapper sends carries the header
    [Authorization: Bearer <token>], with the word "undefined" for the token
    when none is configured.  The request of [fetchTrendingMovies] carries
    [Content-Type: application/json] besides, and asks for revalidation
    after 60 seconds; the requests of the other six carry nothing else and
    no caching hint. *)
Theorem requests_are_authorized
  (token : option jsstring) (upstream : request -> completion response)
  (movieId query : jsstring) (req : request) :
  bearer None = js "Bearer undefined"
  /\ (forall t, bearer (Some t) = js "Bearer " ++ t)
  /\ (In req (requests (trace (fetchTrendingMovies token upstream))) ->
      headers req = [("Authorization"%string, bearer token);
                     ("Content-Type"%string, js "application/json")]
      /\ revalidate req = Some 60%Z)
  /\ (In req (requests (trace (fetchMoviesRecommendation token upstream
                                                         movieId)))
      \/ In req (requests (trace (fetchMovieDetail token upstream movieId)))
      \/ In req (requests (trace (fetchMovieCredits token upstream movieId)))
      \/ In req (requests (trace (fetchMovieTrailer token upstream movieId)))
      \/ In req (requests (trace (fetchMovieReviews token upstream movieId)))
      \/ In req (requests (trace (searchMovies token upstream query))) ->
      headers req = [("Authorization"%string, bearer token)]
      /\ revalidate req = None).
Proof.
  split; [reflexivity | split; [reflexivity | split]].
  - rewrite fetchTrendingMovies_trace, requests_logged.
    intros [<- | []]. now split.
  - rewrite fetchMoviesRecommendation_trace, fetchMovieDetail_trace,
      fetchMovieCredits_trace, fetchMovieTrailer_trace,
      fetchMovieReviews_trace, !requests_logged.
    intros [H | [H | [H | [H | [H | H]]]]];
      try (destruct H as [<- | []]; now split).
    destruct (encodeURIComponent query) as [encoded|e] eqn:Henc.
    + rewrite (searchMovies_trace token upstream query encoded Henc),
        requests_logged in H.
      destruct H as [<- | []]. now split.
    + rewrite (searchMovies_not_encoded token upstream query e Henc) in H.
      destruct H.
Qed.

Lemma requests_are_authorized_witness :
  headers (trending_request None)
  = [("Authorization"%string, js "Bearer undefined");
     ("Content-Type"%string, js "application/json")]
  /\ headers (search_request Sample.token (js "alien"))
     = [("Authorization"%string, js "Bearer t0ken")].
Proof.
  split.
  - destruct (requests_are_authorized
                None Sample.offline Sample.movieId [] (trending_request None))
      as (_ & _ & trending & _).
    apply trending. left. reflexivity.
  - destruct (requests_are_authorized
                Sample.token Sample.offline Sample.movieId (js "alien")
                (search_request Sample.token (js "alien")))
      as (_ & _ & _ & others).
    apply others. do 5 right. left. reflexivity.
Defined.

(** X3.  A wrapper writes to the console when its request fails, and only
    then: one line, under the wrapper's own label, with the exception of the
    failure (for a status that is no success, the wrapper's own [Error],
    whatever the body of the response says).  When the request is answered
    and the body is read and mapped without an exception, nothing is
    written.  [fetchMovieDetail] logs in the same way before it throws
    again.  A search whose query cannot be encoded writes its line without
    having sent anything. *)
Theorem wrappers_log_failures_only
  (token : option jsstring) (upstream : request -> completion response)
  (movieId query : jsstring) :
  logs_failures_only upstream (fetchTrendingMovies token upstream)
    (trending_request token) "Failed to fetch trending movies"
    (map_field "results" to_Movie) "Error fetching trending movies:"
  /\ logs_failures_only upstream
       (fetchMoviesRecommendation token upstream movieId)
       (recommendation_request token movieId)
       "Failed to fetch movies recommendation"
       (map_field "results" to_Movie)
       "Error fetching movies recommendation:"
  /\ logs_failures_only upstream (fetchMovieDetail token upstream movieId)
       (detail_request token movieId) "Failed to fetch movie detail"
       to_MovieDetail "Error fetching movie detail:"
  /\ logs_failures_only upstream (fetchMovieCredits token upstream movieId)
       (credits_request token movieId) "Failed to fetch movie credits"
       (map_field "cast" to_Cast) "Error fetching movie credits:"
  /\ logs_failures_only upstream (fetchMovieTrailer token upstream movieId)
       (trailer_request token movieId) "Failed to fetch movie trailer"
       first_or_null "Error fetching movie trailer:"
  /\ logs_failures_only upstream (fetchMovieReviews token upstream movieId)
       (reviews_request token movieId) "Failed to fetch movie reviews"
       (map_field "results" to_Review) "Error fetching movie reviews:"
  /\ (forall encoded,
         encodeURIComponent query = Normal encoded ->
         logs_failures_only upstream (searchMovies token upstream query)
           (search_request token encoded) search_failed
           (map_field "results" to_Movie) "Error searching movies:")
  /\ (forall e,
         encodeURIComponent query = Throw e ->
         trace (searchMovies token upstream query)
         = [Logged "Error searching movies:" e]).
Proof.
  split; [|split; [|split; [|split; [|split; [|split; [|split]]]]]].
  - apply logged_failures_only, fetchTrendingMovies_trace.
  - apply logged_failures_only, fetchMoviesRecommendation_trace.
  - apply logged_failures_only, fetchMovieDetail_trace.
  - apply logged_failures_only, fetchMovieCredits_trace.
  - apply logged_failures_only, fetchMovieTrailer_trace.
  - apply logged_failures_only, fetchMovieReviews_trace.
  - intros encoded Henc. apply logged_failures_only.
    now apply searchMovies_trace.
  - intros e Henc.
    now rewrite (searchMovies_not_encoded token upstream query e Henc).
Qed.

Lemma wrappers_log_failures_only_witness :
  trace (fetchMovieDetail Sample.token Sample.refuses Sample.movieId)
  = [Requested (detail_request Sample.token Sample.movieId);
     Logged "Error fetching movie detail:"
            (Error "Failed to fetch movie detail")]
  /\ trace (fetchMovieReviews Sample.token (Sample.replies Sample.reviews)
                              Sample.movieId)
     = [Requested (reviews_request Sample.token Sample.movieId)].
Proof.
  split.
  - destruct (wrappers_log_failures_only
                Sample.token Sample.refuses Sample.movieId [])
      as (_ & _ & (detail & _) & _).
    apply detail. apply status_not_ok. eexists. split; reflexivity.
  - destruct (wrappers_log_failures_only
                Sample.token (Sample.replies Sample.reviews)
                Sample.movieId [])
      as (_ & _ & _ & _ & _ & (_ & reviews) & _).
    eapply reviews.
    + eexists. split; [|split]; reflexivity.
    + reflexivity.
Defined.

(** ** Lists that cannot be mapped *)

Lemma map_elements_Throw {B} (f : value -> completion B) items item e :
  In item items -> f item = Throw e ->
  exists e', map_elements f items = Throw e'.
Proof.
  induction items as [|x items IH]; intros Hin Hf; [destruct Hin|].
  simpl. destruct (f x) as [y|e0] eqn:Hx; simpl; [|eauto].
  destruct Hin as [-> | Hin]; [congruence|].
  destruct (IH Hin Hf) as [e' ->]. simpl. eauto.
Qed.

Section ListFailures.

Variable upstream : request -> completion response.
Variable B : Type.
Variable req : request.
Variable message field : string.
Variable f : value -> completion B.

Lemma listed_all_or_nothing (o : outcome (list B)) items item e :
  result o = recover [] (guarded upstream req message (map_field field f)) ->
  lists upstream req field items -> In item items -> f item = Throw e ->
  result o = Normal [].
Proof.
  intros Ho (data & Hdata & Hitems) Hin Hf. rewrite Ho.
  rewrite (guarded_answers upstream _ req message _ data Hdata).
  rewrite (map_field_Arr field f data items Hitems).
  now destruct (map_elements_Throw f items item e Hin Hf) as [e' ->].
Qed.

Lemma listed_needs_list (o : outcome (list B)) data :
  result o = recover [] (guarded upstream req message (map_field field f)) ->
  answers upstream req data -> ~ holds_list data field ->
  result o = Normal [].
Proof.
  intros Ho Hdata Hno. rewrite Ho.
  rewrite (guarded_answers upstream _ req message _ data Hdata).
  unfold map_field. destruct (Get data field) as [v|e] eqn:Hget; simpl.
  - destruct v; simpl; trivial. destruct Hno. now exists elems.
  - reflexivity.
Qed.

End ListFailures.

(** X4.  The five wrappers that return a list map all of it or none of it:
    when the response holds a list and the callback throws on one of its
    items, wherever the item stands, the wrapper returns the empty list, not
    the entries of the items that could be mapped. *)
Theorem list_wrappers_all_or_nothing
  (token : option jsstring) (upstream : request -> completion response)
  (movieId query encoded : jsstring) (items : list value) (item : value)
  (e : exn) :
  In item items ->
  (lists upstream (trending_request token) "results" items ->
   to_Movie item = Throw e ->
   result (fetchTrendingMovies token upstream) = Normal [])
  /\ (lists upstream (recommendation_request token movieId) "results" items ->
      to_Movie item = Throw e ->
      result (fetchMoviesRecommendation token upstream movieId) = Normal [])
  /\ (lists upstream (credits_request token movieId) "cast" items ->
      to_Cast item = Throw e ->
      result (fetchMovieCredits token upstream movieId) = Normal [])
  /\ (lists upstream (reviews_request token movieId) "results" items ->
      to_Review item = Throw e ->
      result (fetchMovieReviews token upstream movieId) = Normal [])
  /\ (encodeURIComponent query = Normal encoded ->
      lists upstream (search_request token encoded) "results" items ->
      to_Movie item = Throw e ->
      result (searchMovies token upstream query) = Normal []).
Proof.
  intros Hin. split; [|split; [|split; [|split]]].
  - intros Hl Hf. eapply listed_all_or_nothing; eauto.
    apply fetchTrendingMovies_result.
  - intros Hl Hf. eapply listed_all_or_nothing; eauto.
    apply fetchMoviesRecommendation_result.
  - intros Hl Hf. eapply listed_all_or_nothing; eauto.
    apply fetchMovieCredits_result.
  - intros Hl Hf. eapply listed_all_or_nothing; eauto.
    apply fetchMovieReviews_result.
  - intros Henc Hl Hf. eapply listed_all_or_nothing; eauto.
    apply (searchMovies_encoded token upstream query encoded Henc).
Qed.

Lemma list_wrappers_all_or_nothing_witness :
  result (fetchTrendingMovies
            Sample.token
            (Sample.replies
               (Obj [Sample.field "results"
                       (Arr [Sample.fight_club; Obj []; Sample.unreleased])])))
  = Normal [].
Proof.
  destruct (list_wrappers_all_or_nothing
              Sample.token
              (Sample.replies
                 (Obj [Sample.field "results"
                         (Arr [Sample.fight_club; Obj [];
                               Sample.unreleased])]))
              Sample.movieId [] []
              [Sample.fight_club; Obj []; Sample.unreleased] (Obj [])
              TypeError)
    as (trending & _).
  - right. left. reflexivity.
  - apply trending.
    + replied.
    + reflexivity.
Defined.

(** X5.  When the response has a success status but its body holds no list
    where the wrapper reads one (the body is null, the property is absent,
    or it holds something that is no array), each of the five wrappers that
    return a list returns the empty list. *)
Theorem list_wrappers_need_a_list
  (token : option jsstring) (upstream : request -> completion response)
  (movieId query encoded : jsstring) (data : value) :
  (answers upstream (trending_request token) data ->
   ~ holds_list data "results" ->
   result (fetchTrendingMovies token upstream) = Normal [])
  /\ (answers upstream (recommendation_request token movieId) data ->
      ~ holds_list data "results" ->
      result (fetchMoviesRecommendation token upstream movieId) = Normal [])
  /\ (answers upstream (credits_request token movieId) data ->
      ~ holds_list data "cast" ->
      result (fetchMovieCredits token upstream movieId) = Normal [])
  /\ (answers upstream (reviews_request token movieId) data ->
      ~ holds_list data "results" ->
      result (fetchMovieReviews token upstream movieId) = Normal [])
  /\ (encodeURIComponent query = Normal encoded ->
      answers upstream (search_request token encoded) data ->
      ~ holds_list data "results" ->
      result (searchMovies token upstream query) = Normal []).
Proof.
  split; [|split; [|split; [|split]]].
  - intros Hd Hno. eapply listed_needs_list; eauto.
    apply fetchTrendingMovies_result.
  - intros Hd Hno. eapply listed_needs_list; eauto.
    apply fetchMoviesRecommendation_result.
  - intros Hd Hno. eapply listed_needs_list; eauto.
    apply fetchMovieCredits_result.
  - intros Hd Hno. eapply listed_needs_list; eauto.
    apply fetchMovieReviews_result.
  - intros Henc Hd Hno. eapply listed_needs_list; eauto.
    apply (searchMovies_encoded token upstream query encoded Henc).
Qed.

Lemma list_wrappers_need_a_list_witness :
  result (fetchMovieCredits Sample.token (Sample.replies Sample.movies)
                            Sample.movieId)
  = Normal []
  /\ result (fetchMovieReviews Sample.token (Sample.replies Null)
                               Sample.movieId)
     = Normal [].
Proof.
  split.
  - destruct (list_wrappers_need_a_list
                Sample.token (Sample.replies Sample.movies) Sample.movieId
                [] [] Sample.movies)
      as (_ & _ & credits & _).
    apply credits.
    + eexists. split; [|split]; reflexivity.
    + intros [items H]. discriminate H.
  - destruct (list_wrappers_need_a_list
                Sample.token (Sample.replies Null) Sample.movieId
                [] [] Null)
      as (_ & _ & _ & reviews & _).
    apply reviews.
    + eexists. split; [|split]; reflexivity.
    + intros [items H]. discriminate H.
Defined.

(** X6.  [fetchMovieTrailer] returns null, without throwing, when the list
    of the response starts with an element that is falsy (null, false, 0,
    the empty string), whatever videos follow it, and when the body has no
    [results] at all. *)
Theorem trailer_null_on_falsy_or_missing
  (token : option jsstring) (upstream : request -> completion response)
  (movieId : jsstring) :
  (forall first rest,
      lists upstream (trailer_request token movieId) "results"
            (first :: rest) ->
      ToBoolean first = false ->
      result (fetchMovieTrailer token upstream movieId) = Normal Null)
  /\ (forall data missing,
         answers upstream (trailer_request token movieId) data ->
         Get data "results" = Normal missing ->
         missing = Undefined \/ missing = Null ->
         result (fetchMovieTrailer token upstream movieId) = Normal Null).
Proof.
  split.
  - intros first rest (data & Hdata & Hitems) Hfalsy.
    rewrite fetchMovieTrailer_result.
    rewrite (guarded_answers upstream _ _ _ _ data Hdata).
    unfold first_or_null. rewrite Hitems. simpl. unfold or_else.
    now rewrite Hfalsy.
  - intros data missing Hdata Hget Hmissing.
    rewrite fetchMovieTrailer_result.
    rewrite (guarded_answers upstream _ _ _ _ data Hdata).
    unfold first_or_null. rewrite Hget.
    now destruct Hmissing as [-> | ->].
Qed.

Lemma trailer_null_on_falsy_or_missing_witness :
  result (fetchMovieTrailer
            Sample.token
            (Sample.replies
               (Obj [Sample.field "results"
                       (Arr [Str []; Sample.teaser])]))
            Sample.movieId)
  = Normal Null
  /\ result (fetchMovieTrailer Sample.token
                               (Sample.replies Sample.not_found)
                               Sample.movieId)
     = Normal Null.
Proof.
  split.
  - destruct (trailer_null_on_falsy_or_missing
                Sample.token
                (Sample.replies
                   (Obj [Sample.field "results"
                           (Arr [Str []; Sample.teaser])]))
                Sample.movieId)
      as (falsy & _).
    apply (falsy (Str []) [Sample.teaser]).
    + replied.
    + reflexivity.
  - destruct (trailer_null_on_falsy_or_missing
                Sample.token (Sample.replies Sample.not_found)
                Sample.movieId)
      as (_ & missing).
    apply (missing Sample.not_found Undefined).
    + eexists. split; [|split]; reflexivity.
    + reflexivity.
    + now left.
Defined.

(** X7.  The callback of [fetchMovieReviews] throws on an item that is null
    (or undefined) and on no other: a list without such an item, whatever
    else its items are and whatever properties they lack, gives as many
    reviews as it has items; a list with a null item gives the empty
    list. *)
Theorem reviews_tolerate_all_but_null
  (token : option jsstring) (upstream : request -> completion response)
  (movieId : jsstring) (items : list value) :
  lists upstream (reviews_request token movieId) "results" items ->
  (Forall present items ->
   yields_mapped (fetchMovieReviews token upstream movieId) to_Review items)
  /\ (In Null items ->
      result (fetchMovieReviews token upstream movieId) = Normal [])
  /\ (forall item, present item <-> maps to_Review item).
Proof.
  assert (Hiff : forall item, present item <-> maps to_Review item).
  { intros item. split.
    - intros [Hnull Hundef]. unfold maps, to_Review.
      destruct item as [| | | | | |props]; try contradiction; simpl; eauto.
      destruct (own_property (js "author_details") props)
        as [[]|]; simpl; eauto.
    - intros [r Hr]. split; intros ->; discriminate Hr. }
  intros Hl. split; [|split; [|exact Hiff]].
  - intros Hall. eapply listed_yields; eauto.
    + apply fetchMovieReviews_result.
    + eapply Forall_impl; [|exact Hall]. intros item. apply Hiff.
  - intros Hin. eapply listed_all_or_nothing; eauto.
    + apply fetchMovieReviews_result.
    + reflexivity.
Qed.

Lemma reviews_tolerate_all_but_null_witness :
  yields_mapped
    (fetchMovieReviews
       Sample.token
       (Sample.replies
          (Obj [Sample.field "results"
                  (Arr [Sample.rated; Num (Int 3); Obj []])]))
       Sample.movieId)
    to_Review [Sample.rated; Num (Int 3); Obj []].
Proof.
  eapply (reviews_tolerate_all_but_null Sample.token).
  - replied.
  - repeat constructor; discriminate.
Defined.

(** ** The fields that are copied *)

Lemma to_MovieDetail_copies data d :
  to_MovieDetail data = Normal d ->
  Get data "title" = Normal (MovieDetail.title d)
  /\ Get data "overview" = Normal (MovieDetail.overview d)
  /\ Get data "release_date" = Normal (MovieDetail.releaseDate d)
  /\ Get data "runtime" = Normal (MovieDetail.runtime d)
  /\ Get data "genres" = Normal (MovieDetail.genres d)
  /\ Get data "spoken_languages" = Normal (MovieDetail.spoken_languages d).
Proof.
  unfold to_MovieDetail. intros H.
  apply bind_Normal_inv in H as (id & Hid & H).
  apply bind_Normal_inv in H as (ids & Hids & H).
  apply bind_Normal_inv in H as (title & Htitle & H).
  apply bind_Normal_inv in H as (poster & Hposter & H).
  apply bind_Normal_inv in H as (s & Hs & H).
  apply bind_Normal_inv in H as (vote & Hvote & H).
  apply bind_Normal_inv in H as (overview & Hoverview & H).
  apply bind_Normal_inv in H as (release & Hrelease & H).
  apply bind_Normal_inv in H as (runtime & Hruntime & H).
  apply bind_Normal_inv in H as (genres & Hgenres & H).
  apply bind_Normal_inv in H as (languages & Hlanguages & H).
  injection H as <-. simpl. auto 10.
Qed.

Lemma to_Cast_copies cast c :
  to_Cast cast = Normal c ->
  Get cast "profile_path" = Normal (Cast.profile_path c)
  /\ Get cast "name" = Normal (Cast.name c)
  /\ Get cast "character" = Normal (Cast.character c)
  /\ Get cast "known_for_department" = Normal (Cast.known_for_department c).
Proof.
  unfold to_Cast. intros H.
  apply bind_Normal_inv in H as (id & Hid & H).
  apply bind_Normal_inv in H as (ids & Hids & H).
  apply bind_Normal_inv in H as (path & Hpath & H).
  apply bind_Normal_inv in H as (name & Hname & H).
  apply bind_Normal_inv in H as (character & Hcharacter & H).
  apply bind_Normal_inv in H as (known & Hknown & H).
  injection H as <-. simpl. auto.
Qed.

Lemma to_Review_copies review r :
  to_Review review = Normal r ->
  Get review "author" = Normal (Review.author r)
  /\ Get review "content" = Normal (Review.content r)
  /\ Get review "created_at" = Normal (Review.created_at r)
  /\ Get review "url" = Normal (Review.url r)
  /\ exists details rating avatar,
      Get review "author_details" = Normal details
      /\ OptionalGet details "rating" = Normal rating
      /\ OptionalGet details "avatar_path" = Normal avatar
      /\ Review.rating r = nullish rating Null
      /\ Review.avatar_path r = nullish avatar Null.
Proof.
  unfold to_Review. intros H.
  apply bind_Normal_inv in H as (id & Hid & H).
  apply bind_Normal_inv in H as (author & Hauthor & H).
  apply bind_Normal_inv in H as (content & Hcontent & H).
  apply bind_Normal_inv in H as (created & Hcreated & H).
  apply bind_Normal_inv in H as (url & Hurl & H).
  apply bind_Normal_inv in H as (details & Hdetails & H).
  apply bind_Normal_inv in H as (rating & Hrating & H).
  apply bind_Normal_inv in H as (details' & Hdetails' & H).
  apply bind_Normal_inv in H as (avatar & Havatar & H).
  injection H as <-. simpl.
  rewrite Hdetails in Hdetails'. injection Hdetails' as <-.
  repeat split; trivial. exists details, rating, avatar. auto.
Qed.

(** X8.  A returned summary has the upstream [title]; a returned detail has
    the upstream [title], [overview], [runtime], [genres] and
    [spoken_languages] under the same names and the upstream [release_date]
    under the name [releaseDate]: the very values, lists included, with no
    conversion. *)
Theorem summaries_and_details_copy_fields
  (token : option jsstring) (upstream : request -> completion response)
  (movieId query : jsstring) :
  (forall item m,
      movie_entry token upstream movieId query item m ->
      Get item "title" = Normal (Movie.title m))
  /\ (forall data d,
         detail_entry token upstream movieId data d ->
         Get data "title" = Normal (MovieDetail.title d)
         /\ Get data "overview" = Normal (MovieDetail.overview d)
         /\ Get data "release_date" = Normal (MovieDetail.releaseDate d)
         /\ Get data "runtime" = Normal (MovieDetail.runtime d)
         /\ Get data "genres" = Normal (MovieDetail.genres d)
         /\ Get data "spoken_languages"
            = Normal (MovieDetail.spoken_languages d)).
Proof.
  split.
  - intros item m H. apply movie_entry_to_Movie in H.
    now destruct (to_Movie_fields item m H) as (id & _ & _ & Htitle & _).
  - intros data d H. apply detail_entry_to_MovieDetail in H.
    now apply to_MovieDetail_copies.
Qed.

Lemma summaries_and_details_copy_fields_witness :
  exists d,
    detail_entry Sample.token (Sample.replies Sample.detail)
                 Sample.movieId Sample.detail d
    /\ Normal (Str (js "1999-10-15")) = Normal (MovieDetail.releaseDate d)
    /\ Normal (Num (Int 139)) = Normal (MovieDetail.runtime d).
Proof.
  eexists.
  split; [split; [eexists; split; [|split]; reflexivity | reflexivity]|].
  destruct (summaries_and_details_copy_fields
              Sample.token (Sample.replies Sample.detail) Sample.movieId [])
    as (_ & detail).
  match goal with
  | |- context [MovieDetail.runtime ?d] =>
      destruct (detail Sample.detail d)
        as (_ & _ & Hrelease & Hruntime & _)
  end.
  - split; [eexists; split; [|split]; reflexivity | reflexivity].
  - split; [exact Hrelease | exact Hruntime].
Defined.

(** X9.  A returned cast entry has the upstream [profile_path], [name],
    [character] and [known_for_department], the very values: a missing
    profile picture stays null, no image URL is built for it. *)
Theorem cast_entries_copy_fields
  (token : option jsstring) (upstream : request -> completion response)
  (movieId : jsstring) (item : value) (c : Cast.t) :
  cast_entry token upstream movieId item c ->
  Get item "profile_path" = Normal (Cast.profile_path c)
  /\ Get item "name" = Normal (Cast.name c)
  /\ Get item "character" = Normal (Cast.character c)
  /\ Get item "known_for_department" = Normal (Cast.known_for_department c).
Proof.
  intros H. apply cast_entry_to_Cast in H. now apply to_Cast_copies.
Qed.

Lemma cast_entries_copy_fields_witness :
  exists c,
    cast_entry Sample.token (Sample.replies Sample.credits)
               Sample.movieId Sample.norton c
    /\ Normal (Str (js "/8nytsqL59SFJTVYVrN72k6qkGgJ.jpg"))
       = Normal (Cast.profile_path c)
    /\ Normal (Str (js "Narrator")) = Normal (Cast.character c).
Proof.
  eexists. split; [entered 0%nat|].
  match goal with
  | |- context [Cast.character ?c] =>
      destruct (cast_entries_copy_fields
                  Sample.token (Sample.replies Sample.credits)
                  Sample.movieId Sample.norton c)
        as (Hpath & _ & Hcharacter & _)
  end.
  - entered 0%nat.
  - split; [exact Hpath | exact Hcharacter].
Defined.

(** X10.  A returned review has the upstream [author], [content],
    [created_at] and [url], the very values; and when the upstream review
    has an [author_details] object that holds an [avatar_path] other than
    null, the returned [avatar_path] is that path as it is, with no prefix
    put before it. *)
Theorem reviews_copy_fields
  (token : option jsstring) (upstream : request -> completion response)
  (movieId : jsstring) (item : value) (r : Review.t) :
  review_entry token upstream movieId item r ->
  Get item "author" = Normal (Review.author r)
  /\ Get item "content" = Normal (Review.content r)
  /\ Get item "created_at" = Normal (Review.created_at r)
  /\ Get item "url" = Normal (Review.url r)
  /\ (forall details avatar,
         Get item "author_details" = Normal (Obj details) ->
         own_property (js "avatar_path") details = Some avatar ->
         present avatar ->
         Review.avatar_path r = avatar).
Proof.
  intros H. apply review_entry_to_Review in H.
  destruct (to_Review_copies item r H)
    as (Hauthor & Hcontent & Hcreated & Hurl
        & details & rating & avatar & Hdetails & _ & Havatar & _ & Hr).
  repeat split; trivial.
  intros details' avatar' Hdetails' Hown [Hnull Hundef].
  rewrite Hdetails in Hdetails'. injection Hdetails' as ->.
  simpl in Havatar. rewrite Hown in Havatar. injection Havatar as <-.
  rewrite Hr. now destruct avatar'.
Qed.

Lemma reviews_copy_fields_witness :
  exists r,
    review_entry Sample.token (Sample.replies Sample.reviews)
                 Sample.movieId Sample.anonymous r
    /\ Normal (Str (js "Brett")) = Normal (Review.author r).
Proof.
  eexists. split; [entered 1%nat|].
  match goal with
  | |- context [Review.author ?r] =>
      destruct (reviews_copy_fields
                  Sample.token (Sample.replies Sample.reviews)
                  Sample.movieId Sample.anonymous r)
        as (Hauthor & _)
  end.
  - entered 1%nat.
  - exact Hauthor.
Defined.

(** ** One wrapper beside another *)

Lemma recover_guarded_answer {A}
      (upstream upstream' : request -> completion response)
      req req' message message' (after : value -> completion A) fallback :
  upstream req = upstream' req' ->
  recover fallback (guarded upstream req message after)
  = recover fallback (guarded upstream' req' message' after).
Proof.
  intros H. unfold guarded, check_ok. rewrite H.
  destruct (upstream' req') as [res|e]; simpl; trivial.
  destruct (ok res); simpl; trivial.
Qed.

(** X11.  The three wrappers that return summaries treat a response alike:
    if the platform answers the trending request and the recommendation
    request (or the search request) in the same way, the two wrappers
    return the same list, the empty list of a failure included. *)
Theorem summary_wrappers_agree
  (token : option jsstring) (upstream : request -> completion response)
  (movieId query encoded : jsstring) :
  (upstream (trending_request token)
   = upstream (recommendation_request token movieId) ->
   result (fetchTrendingMovies token upstream)
   = result (fetchMoviesRecommendation token upstream movieId))
  /\ (encodeURIComponent query = Normal encoded ->
      upstream (trending_request token)
      = upstream (search_request token encoded) ->
      result (fetchTrendingMovies token upstream)
      = result (searchMovies token upstream query)).
Proof.
  split.
  - intros H.
    rewrite fetchTrendingMovies_result, fetchMoviesRecommendation_result.
    now apply recover_guarded_answer.
  - intros Henc H. rewrite fetchTrendingMovies_result.
    destruct (searchMovies_encoded token upstream query encoded Henc)
      as [-> _].
    now apply recover_guarded_answer.
Qed.

Lemma summary_wrappers_agree_witness :
  result (fetchTrendingMovies Sample.token (Sample.replies Sample.movies))
  = result (searchMovies Sample.token (Sample.replies Sample.movies)
                         (js "fight club")).
Proof.
  destruct (summary_wrappers_agree
              Sample.token (Sample.replies Sample.movies) Sample.movieId
              (js "fight club") (js "fight%20club"))
    as (_ & search).
  apply search; reflexivity.
Defined.

(** X12.  The outcome of a wrapper, its trace and its result, depends on
    the platform through the answer to the wrapper's one request only: two
    platforms that answer that request alike give the same outcome,
    whatever they answer elsewhere. *)
Theorem wrappers_read_one_answer
  (token : option jsstring)
  (upstream upstream' : request -> completion response)
  (movieId query : jsstring) :
  (upstream (trending_request token) = upstream' (trending_request token) ->
   fetchTrendingMovies token upstream = fetchTrendingMovies token upstream')
  /\ (upstream (recommendation_request token movieId)
      = upstream' (recommendation_request token movieId) ->
      fetchMoviesRecommendation token upstream movieId
      = fetchMoviesRecommendation token upstream' movieId)
  /\ (upstream (detail_request token movieId)
      = upstream' (detail_request token movieId) ->
      fetchMovieDetail token upstream movieId
      = fetchMovieDetail token upstream' movieId)
  /\ (upstream (credits_request token movieId)
      = upstream' (credits_request token movieId) ->
      fetchMovieCredits token upstream movieId
      = fetchMovieCredits token upstream' movieId)
  /\ (upstream (trailer_request token movieId)
      = upstream' (trailer_request token movieId) ->
      fetchMovieTrailer token upstream movieId
      = fetchMovieTrailer token upstream' movieId)
  /\ (upstream (reviews_request token movieId)
      = upstream' (reviews_request token movieId) ->
      fetchMovieReviews token upstream movieId
      = fetchMovieReviews token upstream' movieId)
  /\ ((forall encoded,
          encodeURIComponent query = Normal encoded ->
          upstream (search_request token encoded)
          = upstream' (search_request token encoded)) ->
      searchMovies token upstream query = searchMovies token upstream' query).
Proof.
  split; [|split; [|split; [|split; [|split; [|split]]]]].
  - intros H. unfold fetchTrendingMovies, and_then, fetch. simpl.
    now rewrite H.
  - intros H. unfold fetchMoviesRecommendation, and_then, fetch. simpl.
    now rewrite H.
  - intros H. unfold fetchMovieDetail, and_then, fetch. simpl.
    now rewrite H.
  - intros H. unfold fetchMovieCredits, and_then, fetch. simpl.
    now rewrite H.
  - intros H. unfold fetchMovieTrailer, and_then, fetch. simpl.
    now rewrite H.
  - intros H. unfold fetchMovieReviews, and_then, fetch. simpl.
    now rewrite H.
  - intros H. unfold searchMovies, and_then, fetch. simpl.
    destruct (encodeURIComponent query) as [encoded|e]; simpl; trivial.
    now rewrite (H encoded eq_refl).
Qed.

Lemma wrappers_read_one_answer_witness :
  fetchMovieCredits
    Sample.token
    (fun req =>
       if jsstring_eqb (url req)
            (url (credits_request Sample.token Sample.movieId))
       then Sample.replies Sample.credits req
       else Sample.offline req)
    Sample.movieId
  = fetchMovieCredits Sample.token (Sample.replies Sample.credits)
                      Sample.movieId.
Proof.
  destruct (wrappers_read_one_answer
              Sample.token
              (fun req =>
                 if jsstring_eqb (url req)
                      (url (credits_request Sample.token Sample.movieId))
                 then Sample.replies Sample.credits req
                 else Sample.offline req)
              (Sample.replies Sample.credits)
              Sample.movieId [])
    as (_ & _ & _ & credits & _).
  apply credits. reflexivity.
Defined.

(** X13.  The movie id is put into the URL as it is, not encoded as the
    search query is: an id that holds a slash names another path.  The
    request that [fetchMovieDetail] sends for the id followed by
    ["/credits"] is the very request that [fetchMovieCredits] sends for the
    id. *)
Theorem movie_id_is_not_encoded
  (token : option jsstring) (upstream : request -> completion response)
  (movieId : jsstring) :
  requests (trace (fetchMovieDetail token upstream
                                    (movieId ++ js "/credits")))
  = requests (trace (fetchMovieCredits token upstream movieId))
  /\ requests (trace (fetchMovieDetail token upstream
                                       (movieId ++ js "/videos")))
     = requests (trace (fetchMovieTrailer token upstream movieId))
  /\ requests (trace (fetchMovieDetail token upstream
                                       (movieId ++ js "/reviews")))
     = requests (trace (fetchMovieReviews token upstream movieId))
  /\ requests (trace (fetchMovieDetail token upstream
                                       (movieId ++ js "/recommendations")))
     = requests (trace (fetchMoviesRecommendation token upstream movieId)).
Proof.
  rewrite !fetchMovieDetail_trace, fetchMovieCredits_trace,
    fetchMovieTrailer_trace, fetchMovieReviews_trace,
    fetchMoviesRecommendation_trace, !requests_logged.
  unfold detail_request, credits_request, trailer_request, reviews_request,
    recommendation_request.
  now rewrite !app_assoc.
Qed.

(** ** The encoding of the search query *)

Lemma encodeURIComponent_well_formed n :
  forall s,
    length s <= n ->
    match encodeURIComponent s with
    | Normal _ => isWellFormed s = true
    | Throw e => e = URIError /\ isWellFormed s = false
    end.
Proof.
  induction n as [|n IH]; intros [|c rest] Hlen; simpl in *;
    trivial; try lia.
  destruct (uri_unreserved c) eqn:Hc.
  - destruct (unreserved_no_surrogate c Hc) as [-> ->]. simpl.
    specialize (IH rest ltac:(lia)).
    now destruct (encodeURIComponent rest).
  - destruct (trailing_surrogate c) eqn:Ht.
    + split; trivial.
      assert (Hl : leading_surrogate c = false).
      { revert Ht. unfold leading_surrogate, trailing_surrogate.
        rewrite andb_true_iff, andb_false_iff, !N.leb_le, !N.leb_gt. lia. }
      now rewrite Hl.
    + destruct (leading_surrogate c).
      * destruct rest as [|d rest']; [now split|].
        destruct (trailing_surrogate d); [|now split]. simpl.
        specialize (IH rest' ltac:(simpl in Hlen; lia)).
        now destruct (encodeURIComponent rest').
      * simpl. specialize (IH rest ltac:(lia)).
        now destruct (encodeURIComponent rest).
Qed.

Lemma encodeURIComponent_unreserved s :
  Forall (fun c => uri_unreserved c = true) s ->
  encodeURIComponent s = Normal s.
Proof.
  induction 1 as [|c rest Hc _ IH]; simpl; trivial.
  now rewrite Hc, IH.
Qed.

(** X14.  [searchMovies] sends no request exactly when its query is not
    well formed, that is, holds a surrogate without its partner: the
    exception that [encodeURIComponent] then raises is a [URIError], the one
    thing the wrapper does is to log it, and its result is the empty
    list. *)
Theorem search_sends_nothing_iff_ill_formed
  (token : option jsstring) (upstream : request -> completion response)
  (query : jsstring) :
  (isWellFormed query = false <->
   requests (trace (searchMovies token upstream query)) = [])
  /\ (isWellFormed query = false ->
      searchMovies token upstream query
      = {| trace := [Logged "Error searching movies:" URIError];
           result := Normal [] |}).
Proof.
  pose proof (encodeURIComponent_well_formed (length query) query (le_n _))
    as H.
  destruct (encodeURIComponent query) as [encoded|e] eqn:Henc.
  - rewrite (searchMovies_trace token upstream query encoded Henc),
      requests_logged, H.
    repeat split; discriminate.
  - destruct H as [-> H].
    rewrite (searchMovies_not_encoded token upstream query URIError Henc).
    repeat split; trivial.
Qed.

Lemma search_sends_nothing_iff_ill_formed_witness :
  searchMovies Sample.token (Sample.replies Sample.movies)
               (js "alien " ++ [56832%N])
  = {| trace := [Logged "Error searching movies:" URIError];
       result := Normal [] |}.
Proof.
  apply (search_sends_nothing_iff_ill_formed
           Sample.token (Sample.replies Sample.movies)
           (js "alien " ++ [56832%N])).
  reflexivity.
Defined.

(** X15.  A query made of letters, digits and the marks
    [- _ . ! ~ * ' ( )] only goes into the URL as it is: the request of the
    search is for the search endpoint, the query unchanged, and the fixed
    language parameter.  The empty query is such a query: the request is
    sent for it all the same, with nothing after [query=]. *)
Theorem search_keeps_unreserved_query
  (token : option jsstring) (upstream : request -> completion response)
  (query : jsstring) :
  Forall (fun c => uri_unreserved c = true) query ->
  exists req,
    requests (trace (searchMovies token upstream query)) = [req]
    /\ url req = js "https://api.themoviedb.org/3/search/movie?query="
                 ++ query ++ js "&language=en-US".
Proof.
  intros H. apply encodeURIComponent_unreserved in H.
  exists (search_request token query).
  now rewrite (searchMovies_trace token upstream query query H),
    requests_logged.
Qed.

Lemma search_keeps_unreserved_query_witness :
  (exists req,
      requests (trace (searchMovies Sample.token Sample.offline
                                    (js "Se7en")))
      = [req]
      /\ url req
         = js "https://api.themoviedb.org/3/search/movie?query="
           ++ js "Se7en" ++ js "&language=en-US")
  /\ (exists req,
         requests (trace (searchMovies Sample.token Sample.offline []))
         = [req]
         /\ url req
            = js "https://api.themoviedb.org/3/search/movie?query="
              ++ [] ++ js "&language=en-US").
Proof.
  split.
  - apply (search_keeps_unreserved_query
             Sample.token Sample.offline (js "Se7en")).
    repeat constructor.
  - apply (search_keeps_unreserved_query Sample.token Sample.offline []).
    constructor.
Defined.

(** ** Different queries, different requests *)

(** Arithmetic with quotients and remainders by constants. *)
Ltac divmod_lia := zify; Z.to_euclidean_division_equations; lia.

Lemma hex_digit_inj n m :
  hex_digit n = hex_digit m -> (n mod 16 = m mod 16)%N.
Proof.
  unfold hex_digit.
  destruct (N.ltb_spec (n mod 16) 10), (N.ltb_spec (m mod 16) 10);
    divmod_lia.
Qed.

Lemma percent_app_inj o o' t t' :
  (o < 256)%N -> (o' < 256)%N ->
  percent o ++ t = percent o' ++ t' -> o = o' /\ t = t'.
Proof.
  unfold percent. simpl. intros Ho Ho' H.
  injection H as H1 H2 Ht.
  apply hex_digit_inj in H1. apply hex_digit_inj in H2.
  split; [divmod_lia | exact Ht].
Qed.

(** The octets of a code point, by their number, with what the first one
    tells and how the code point is read back from them. *)
Lemma utf8_cases cp :
  (cp < 1114112)%N ->
  (utf8 cp = [cp] /\ cp < 128)%N
  \/ (exists a b,
         utf8 cp = [a; b] /\ 192 <= a < 224 /\ b < 256
         /\ cp = (a - 192) * 64 + (b - 128) /\ 128 <= b)%N
  \/ (exists a b c,
         utf8 cp = [a; b; c] /\ 224 <= a < 240 /\ b < 256 /\ c < 256
         /\ cp = (a - 224) * 4096 + (b - 128) * 64 + (c - 128)
         /\ 128 <= b /\ 128 <= c)%N
  \/ (exists a b c d,
         utf8 cp = [a; b; c; d] /\ 240 <= a < 248
         /\ b < 256 /\ c < 256 /\ d < 256
         /\ cp = (a - 240) * 262144 + (b - 128) * 4096 + (c - 128) * 64
                 + (d - 128)
         /\ 128 <= b /\ 128 <= c /\ 128 <= d)%N.
Proof.
  intros Hcp. unfold utf8.
  destruct (N.ltb_spec cp 128); [left; now split|].
  destruct (N.ltb_spec cp 2048).
  { right; left. do 2 eexists. split; [reflexivity | divmod_lia]. }
  destruct (N.ltb_spec cp 65536).
  { right; right; left. do 3 eexists. split; [reflexivity | divmod_lia]. }
  right; right; right. do 4 eexists. split; [reflexivity | divmod_lia].
Qed.

Lemma escape_cons_app o octets t :
  List.concat (map percent (o :: octets)) ++ t
  = percent o ++ (List.concat (map percent octets) ++ t).
Proof. cbn [map List.concat]. now rewrite app_assoc. Qed.

(** The escapes of a code point can be told from what follows them, and
    tell the code point. *)
Lemma escape_app_inj cp cp' t t' :
  (cp < 1114112)%N -> (cp' < 1114112)%N ->
  escape cp ++ t = escape cp' ++ t' -> cp = cp' /\ t = t'.
Proof.
  intros Hcp Hcp'. unfold escape.
  destruct (utf8_cases cp Hcp)
    as [[-> Ha] | [(a & b & -> & Ha & Hb & -> & Hb')
       | [(a & b & c & -> & Ha & Hb & Hc & -> & Hb' & Hc')
         | (a & b & c & d & -> & Ha & Hb & Hc & Hd & -> & Hb' & Hc' & Hd')]]];
    destruct (utf8_cases cp' Hcp')
      as [[-> Ha'] | [(a' & b' & -> & Ha' & Hbb & -> & Hbb')
         | [(a' & b' & c' & -> & Ha' & Hbb & Hcc & -> & Hbb' & Hcc')
           | (a' & b' & c' & d' & -> & Ha' & Hbb & Hcc & Hdd & ->
              & Hbb' & Hcc' & Hdd')]]];
    intros H; rewrite !escape_cons_app in H;
    apply percent_app_inj in H as [Hfirst H]; try lia;
    repeat (apply percent_app_inj in H as [? H]; try lia);
    cbn [map List.concat app] in H; subst; auto; try lia.
Qed.

Lemma escape_starts_with_percent cp :
  exists rest, escape cp = 37%N :: rest.
Proof.
  unfold escape, utf8.
  destruct (cp <? 128)%N; [simpl; eauto|].
  destruct (cp <? 2048)%N; [simpl; eauto|].
  destruct (cp <? 65536)%N; simpl; eauto.
Qed.

(** What [encodeURIComponent] made of the first code unit, or of the first
    two. *)
Lemma encodeURIComponent_cons c rest encoded :
  encodeURIComponent (c :: rest) = Normal encoded ->
  (uri_unreserved c = true
   /\ exists tail,
       encodeURIComponent rest = Normal tail /\ encoded = c :: tail)
  \/ (uri_unreserved c = false /\ leading_surrogate c = false
      /\ trailing_surrogate c = false
      /\ exists tail,
          encodeURIComponent rest = Normal tail
          /\ encoded = escape c ++ tail)
  \/ (uri_unreserved c = false /\ leading_surrogate c = true
      /\ exists d rest' tail,
          rest = d :: rest' /\ trailing_surrogate d = true
          /\ encodeURIComponent rest' = Normal tail
          /\ encoded = escape (surrogate_pair c d) ++ tail).
Proof.
  simpl. intros H. destruct (uri_unreserved c) eqn:Hc.
  - left. split; trivial.
    apply bind_Normal_inv in H as (tail & Htail & [= <-]). eauto.
  - right. destruct (trailing_surrogate c) eqn:Ht; [discriminate|].
    destruct (leading_surrogate c) eqn:Hl.
    + right. repeat split; trivial.
      destruct rest as [|d rest']; [discriminate|].
      destruct (trailing_surrogate d) eqn:Hd; [|discriminate].
      apply bind_Normal_inv in H as (tail & Htail & [= <-]).
      exists d, rest', tail. auto.
    + left. repeat split; trivial.
      apply bind_Normal_inv in H as (tail & Htail & [= <-]). eauto.
Qed.

Lemma surrogate_pair_bounds c d :
  leading_surrogate c = true -> trailing_surrogate d = true ->
  (65536 <= surrogate_pair c d < 1114112)%N.
Proof.
  unfold leading_surrogate, trailing_surrogate, surrogate_pair.
  rewrite !andb_true_iff, !N.leb_le. lia.
Qed.

Lemma surrogate_pair_inj c d c' d' :
  leading_surrogate c = true -> trailing_surrogate d = true ->
  leading_surrogate c' = true -> trailing_surrogate d' = true ->
  surrogate_pair c d = surrogate_pair c' d' -> c = c' /\ d = d'.
Proof.
  unfold leading_surrogate, trailing_surrogate, surrogate_pair.
  rewrite !andb_true_iff, !N.leb_le. lia.
Qed.

Lemma encodeURIComponent_empty s :
  encodeURIComponent s = Normal [] -> s = [].
Proof.
  destruct s as [|c rest]; trivial. intros H.
  apply encodeURIComponent_cons in H
    as [(_ & t & _ & Ht) | [(_ & _ & _ & t & _ & Ht)
       | (_ & _ & d & r & t & _ & _ & _ & Ht)]]; try discriminate.
  - destruct (escape_starts_with_percent c) as [x Hx].
    rewrite Hx in Ht. discriminate.
  - destruct (escape_starts_with_percent (surrogate_pair c d)) as [x Hx].
    rewrite Hx in Ht. discriminate.
Qed.

Lemma encodeURIComponent_inj n :
  forall s s' encoded,
    length s <= n -> code_units s -> code_units s' ->
    encodeURIComponent s = Normal encoded ->
    encodeURIComponent s' = Normal encoded ->
    s = s'.
Proof.
  induction n as [|n IH]; intros [|c rest] [|c' rest'] encoded Hlen Hs Hs' H H';
    trivial; simpl in Hlen; try lia;
    try (change (Normal [] = Normal encoded) in H; injection H as <-;
         symmetry; now apply encodeURIComponent_empty);
    try (change (Normal [] = Normal encoded) in H'; injection H' as <-;
         now apply encodeURIComponent_empty).
  - inversion Hs as [|? ? Hc Hrest]; subst.
    inversion Hs' as [|? ? Hc' Hrest']; subst.
    apply encodeURIComponent_cons in H
      as [(Hu & t & Ht & ->) | [(Hu & Hl & Htr & t & Ht & ->)
         | (Hu & Hl & d & r & t & -> & Hd & Ht & ->)]];
      apply encodeURIComponent_cons in H'
        as [(Hu' & t' & Ht' & He) | [(Hu' & Hl' & Htr' & t' & Ht' & He)
           | (Hu' & Hl' & d' & r' & t' & -> & Hd' & Ht' & He)]].
    + injection He as -> ->. f_equal. eapply IH; eauto. lia.
    + destruct (escape_starts_with_percent c') as [x Hx].
      rewrite Hx in He. injection He as -> _. discriminate.
    + destruct (escape_starts_with_percent (surrogate_pair c' d'))
        as [x Hx].
      rewrite Hx in He. injection He as -> _. discriminate.
    + destruct (escape_starts_with_percent c) as [x Hx].
      rewrite Hx in He. injection He as <- _. discriminate.
    + apply escape_app_inj in He as [-> ->]; try lia.
      f_equal. eapply IH; eauto. lia.
    + pose proof (surrogate_pair_bounds c' d' Hl' Hd').
      apply escape_app_inj in He as [He _]; lia.
    + destruct (escape_starts_with_percent (surrogate_pair c d)) as [x Hx].
      rewrite Hx in He. injection He as <- _. discriminate.
    + pose proof (surrogate_pair_bounds c d Hl Hd).
      apply escape_app_inj in He as [He _]; lia.
    + pose proof (surrogate_pair_bounds c d Hl Hd).
      pose proof (surrogate_pair_bounds c' d' Hl' Hd').
      apply escape_app_inj in He as [He ->]; try lia.
      destruct (surrogate_pair_inj c d c' d' Hl Hd Hl' Hd' He) as [-> ->].
      inversion Hrest; inversion Hrest'; subst.
      do 2 f_equal. eapply IH; eauto. simpl in Hlen. lia.
Qed.

(** X16.  The request of a search tells its query: when a well-formed
    query and another query (both sequences of code units) make
    [searchMovies] send the same requests, on whatever platforms, the two
    queries are the same string.  Percent-encoding loses nothing, so no two
    different searches are answered from the same URL. *)
Theorem search_requests_tell_queries
  (token : option jsstring)
  (upstream upstream' : request -> completion response)
  (query query' : jsstring) :
  code_units query -> code_units query' -> isWellFormed query = true ->
  requests (trace (searchMovies token upstream query))
  = requests (trace (searchMovies token upstream' query')) ->
  query = query'.
Proof.
  intros Hq Hq' Hwf.
  destruct (encodeURIComponent_total (length query) query (le_n _) Hwf)
    as [encoded Henc].
  rewrite (searchMovies_trace token upstream query encoded Henc),
    requests_logged.
  destruct (encodeURIComponent query') as [encoded'|e] eqn:Henc'.
  - rewrite (searchMovies_trace token upstream' query' encoded' Henc'),
      requests_logged.
    intros [= H]. apply app_inv_tail in H. subst encoded'.
    exact (encodeURIComponent_inj (length query) query query' encoded
             (le_n _) Hq Hq' Henc Henc').
  - rewrite (searchMovies_not_encoded token upstream' query' e Henc').
    discriminate.
Qed.

Lemma search_requests_tell_queries_witness :
  js "tom & jerry" = js "tom & jerry".
Proof.
  apply (search_requests_tell_queries
           Sample.token Sample.offline (Sample.replies Sample.movies)).
  - repeat constructor.
  - repeat constructor.
  - reflexivity.
  - reflexivity.
Defined.

(** ** Items with and without an id *)

Lemma missing_id_throws item missing :
  Get item "id" = Normal missing ->
  missing = Undefined \/ missing = Null ->
  to_Movie item = Throw TypeError
  /\ to_MovieDetail item = Throw TypeError
  /\ to_Cast item = Throw TypeError.
Proof.
  intros Hid Hmissing. unfold to_Movie, to_MovieDetail, to_Cast.
  rewrite Hid. now destruct Hmissing as [-> | ->].
Qed.

Lemma summary_shaped_maps item : summary_shaped item -> maps to_Movie item.
Proof.
  intros (n & poster & Hid & Hposter & Hshape). unfold maps, to_Movie.
  rewrite Hid. simpl.
  destruct item; try discriminate. simpl in *.
  injection Hposter as ->.
  destruct Hshape as [-> | [-> | [s ->]]]; simpl; eauto.
Qed.

(** X17.  An item without an [id] (the property is absent or null) cannot
    be mapped: [toString()] is called on nothing and raises a [TypeError].
    One such item in the list makes the wrappers of summaries and of the
    cast return the empty list; a body without an [id] makes
    [fetchMovieDetail] throw the [TypeError], although the status was a
    success. *)
Theorem missing_id_fails_the_mapping
  (token : option jsstring) (upstream : request -> completion response)
  (movieId query encoded : jsstring) (missing : value) :
  missing = Undefined \/ missing = Null ->
  (forall items item,
      In item items -> Get item "id" = Normal missing ->
      (lists upstream (trending_request token) "results" items ->
       result (fetchTrendingMovies token upstream) = Normal [])
      /\ (lists upstream (recommendation_request token movieId)
                "results" items ->
          result (fetchMoviesRecommendation token upstream movieId)
          = Normal [])
      /\ (lists upstream (credits_request token movieId) "cast" items ->
          result (fetchMovieCredits token upstream movieId) = Normal [])
      /\ (encodeURIComponent query = Normal encoded ->
          lists upstream (search_request token encoded) "results" items ->
          result (searchMovies token upstream query) = Normal []))
  /\ (forall data,
         answers upstream (detail_request token movieId) data ->
         Get data "id" = Normal missing ->
         result (fetchMovieDetail token upstream movieId) = Throw TypeError).
Proof.
  intros Hmissing. split.
  - intros items item Hin Hid.
    destruct (missing_id_throws item missing Hid Hmissing)
      as (Hmovie & _ & Hcast).
    split; [|split; [|split]].
    + intros Hl. eapply listed_all_or_nothing; eauto.
      apply fetchTrendingMovies_result.
    + intros Hl. eapply listed_all_or_nothing; eauto.
      apply fetchMoviesRecommendation_result.
    + intros Hl. eapply listed_all_or_nothing; eauto.
      apply fetchMovieCredits_result.
    + intros Henc Hl. eapply listed_all_or_nothing; eauto.
      apply (searchMovies_encoded token upstream query encoded Henc).
  - intros data Hdata Hid. rewrite fetchMovieDetail_result.
    rewrite (guarded_answers upstream _ _ _ _ data Hdata).
    now apply (missing_id_throws data missing Hid Hmissing).
Qed.

Lemma missing_id_fails_the_mapping_witness :
  result (fetchMovieCredits
            Sample.token
            (Sample.replies
               (Obj [Sample.field "cast"
                       (Arr [Sample.norton;
                             Obj [Sample.field "name"
                                    (Str (js "Brad Pitt"))]])]))
            Sample.movieId)
  = Normal []
  /\ result (fetchMovieDetail Sample.token
                              (Sample.replies Sample.not_found)
                              Sample.movieId)
     = Throw TypeError.
Proof.
  split.
  - destruct (missing_id_fails_the_mapping
                Sample.token
                (Sample.replies
                   (Obj [Sample.field "cast"
                           (Arr [Sample.norton;
                                 Obj [Sample.field "name"
                                        (Str (js "Brad Pitt"))]])]))
                Sample.movieId [] [] Undefined (or_introl eq_refl))
      as (lists_fail & _).
    destruct (lists_fail
                [Sample.norton;
                 Obj [Sample.field "name" (Str (js "Brad Pitt"))]]
                (Obj [Sample.field "name" (Str (js "Brad Pitt"))]))
      as (_ & _ & credits & _).
    + right. left. reflexivity.
    + reflexivity.
    + apply credits. replied.
  - destruct (missing_id_fails_the_mapping
                Sample.token (Sample.replies Sample.not_found)
                Sample.movieId [] [] Undefined (or_introl eq_refl))
      as (_ & detail).
    apply (detail Sample.not_found).
    + eexists. split; [|split]; reflexivity.
    + reflexivity.
Defined.

(** X18.  A list whose items all have a numeric [id] and a [poster_path]
    that is a string, null or absent is mapped whole by the three wrappers
    of summaries, whatever else the items hold or lack: as many summaries
    as items, in their order. *)
Theorem summary_shaped_lists_are_mapped
  (token : option jsstring) (upstream : request -> completion response)
  (movieId query encoded : jsstring) (items : list value) :
  Forall summary_shaped items ->
  (lists upstream (trending_request token) "results" items ->
   yields_mapped (fetchTrendingMovies token upstream) to_Movie items)
  /\ (lists upstream (recommendation_request token movieId) "results" items ->
      yields_mapped (fetchMoviesRecommendation token upstream movieId)
                    to_Movie items)
  /\ (encodeURIComponent query = Normal encoded ->
      lists upstream (search_request token encoded) "results" items ->
      yields_mapped (searchMovies token upstream query) to_Movie items).
Proof.
  intros Hall.
  assert (Hmaps : Forall (maps to_Movie) items)
    by (eapply Forall_impl; [|exact Hall]; apply summary_shaped_maps).
  split; [|split].
  - intros Hl. eapply listed_yields; eauto.
    apply fetchTrendingMovies_result.
  - intros Hl. eapply listed_yields; eauto.
    apply fetchMoviesRecommendation_result.
  - intros Henc Hl. eapply listed_yields; eauto.
    apply (searchMovies_encoded token upstream query encoded Henc).
Qed.

Lemma summary_shaped_lists_are_mapped_witness :
  yields_mapped
    (fetchMoviesRecommendation
       Sample.token
       (Sample.replies
          (Obj [Sample.field "results"
                  (Arr [Sample.unreleased;
                        Obj [Sample.field "id" (Num (Int 7))]])]))
       Sample.movieId)
    to_Movie
    [Sample.unreleased; Obj [Sample.field "id" (Num (Int 7))]].
Proof.
  destruct (summary_shaped_lists_are_mapped
              Sample.token
              (Sample.replies
                 (Obj [Sample.field "results"
                         (Arr [Sample.unreleased;
                               Obj [Sample.field "id" (Num (Int 7))]])]))
              Sample.movieId [] []
              [Sample.unreleased; Obj [Sample.field "id" (Num (Int 7))]])
    as (_ & recommendation & _).
  - constructor; [|constructor; [|constructor]].
    + exists (Int 999001), Null. repeat split; auto.
    + exists (Int 7), Undefined. repeat split; auto.
  - apply recommendation. replied.
Defined.

(** * Lists, field by field *)

Lemma yields_mapped_each {A} (o : outcome (list A))
      (f : value -> completion A) (R : value -> A -> Prop) items :
  yields_mapped o f items ->
  (forall item out, In item items -> f item = Normal out -> R item out) ->
  yields_each o R items.
Proof.
  intros (outs & Hres & Hlen & Hnth) HR. exists outs.
  split; [exact Hres | split; [exact Hlen|]].
  intros i item Hi. specialize (Hnth i). rewrite Hi in Hnth. simpl in Hnth.
  destruct (nth_error outs i) as [out|]; simpl in Hnth; [|discriminate].
  injection Hnth as Hf. exists out. split; [reflexivity|].
  apply HR; [|exact Hf]. eapply nth_error_In. exact Hi.
Qed.

Lemma to_Movie_summary item m :
  summary_shaped item -> to_Movie item = Normal m -> summary_of item m.
Proof.
  intros (n & poster & Hid & Hposter & Hshape) H.
  destruct (to_Movie_fields item m H)
    as (id & Hid' & Hcall & Htitle & poster' & s & Hposter' & Hs & Himage
        & Hvote).
  rewrite Hid in Hid'. injection Hid' as <-.
  rewrite Hposter in Hposter'. injection Hposter' as <-.
  simpl in Hcall. injection Hcall as Hcall.
  exists n, poster. repeat split; auto.
  rewrite Himage.
  destruct Hshape as [-> | [-> | [s' ->]]]; simpl in Hs; injection Hs as <-.
  - right. right. now split.
  - right. left. now split.
  - left. exists s'. now split.
Qed.

Lemma cast_shaped_maps item : cast_shaped item -> maps to_Cast item.
Proof.
  intros (n & Hid). unfold maps, to_Cast. rewrite Hid. simpl.
  destruct item; try discriminate. simpl. eauto.
Qed.

Lemma to_Cast_member item c :
  cast_shaped item -> to_Cast item = Normal c -> cast_member_of item c.
Proof.
  intros (n & Hid) H.
  destruct (to_Cast_fields item c H) as (id & Hid' & Hcall).
  rewrite Hid in Hid'. injection Hid' as <-.
  simpl in Hcall. injection Hcall as Hcall.
  destruct (to_Cast_copies item c H) as (Hpath & Hname & Hchar & Hknown).
  exists n. repeat split; auto.
Qed.

Lemma present_maps_to_Review item : present item -> maps to_Review item.
Proof.
  intros [Hnull Hundef]. unfold maps, to_Review.
  destruct item as [| | | | | |props]; try contradiction; simpl; eauto.
  destruct (own_property (js "author_details") props) as [[]|]; simpl; eauto.
Qed.

Lemma to_Review_review item r :
  to_Review item = Normal r -> review_of item r.
Proof.
  intros H. pose proof (to_Review_id item r H) as Hid.
  destruct (to_Review_copies item r H)
    as (Hauthor & Hcontent & Hcreated & Hurl & Hdetails).
  unfold review_of. auto 10.
Qed.

(** C1.  Each of the five wrappers that return a list (trending movies,
    recommendations, credits, reviews, search), on a response with a success
    status whose body holds a list of N upstream items under [results]
    ([cast] for the credits), returns a list of exactly N entries, and the
    entry at each index is the mapping, field by field, of the item at that
    index: for a summary, the [id] in decimal, the [title], the prefixed
    [poster_path] as [image], the [vote_average] as [rating]; for a cast
    entry, the [id] in decimal and the four other fields as they are; for a
    review, the five copied fields and the [rating] and [avatar_path] of its
    [author_details], or null.  An upstream summary has a numeric [id] and a
    [poster_path] that is a string, null or absent; an upstream cast item
    has a numeric [id]; an upstream review is any item but null. *)
Theorem list_wrappers_map_fields_in_order
  (token : option jsstring) (upstream : request -> completion response)
  (movieId query encoded : jsstring) (items : list value) :
  (lists upstream (trending_request token) "results" items ->
   Forall summary_shaped items ->
   yields_each (fetchTrendingMovies token upstream) summary_of items)
  /\ (lists upstream (recommendation_request token movieId) "results" items ->
      Forall summary_shaped items ->
      yields_each (fetchMoviesRecommendation token upstream movieId)
                  summary_of items)
  /\ (lists upstream (credits_request token movieId) "cast" items ->
      Forall cast_shaped items ->
      yields_each (fetchMovieCredits token upstream movieId)
                  cast_member_of items)
  /\ (lists upstream (reviews_request token movieId) "results" items ->
      Forall present items ->
      yields_each (fetchMovieReviews token upstream movieId)
                  review_of items)
  /\ (encodeURIComponent query = Normal encoded ->
      lists upstream (search_request token encoded) "results" items ->
      Forall summary_shaped items ->
      yields_each (searchMovies token upstream query) summary_of items).
Proof.
  assert (Hsummary :
            forall o : outcome (list Movie.t),
              yields_mapped o to_Movie items ->
              Forall summary_shaped items ->
              yields_each o summary_of items).
  { intros o Ho Hall. eapply yields_mapped_each; [exact Ho|].
    intros item m Hin. apply to_Movie_summary.
    rewrite Forall_forall in Hall. now apply Hall. }
  assert (Hmaps :
            Forall summary_shaped items -> Forall (maps to_Movie) items).
  { intros Hall. eapply Forall_impl; [|exact Hall].
    apply summary_shaped_maps. }
  split; [|split; [|split; [|split]]].
  - intros Hl Hall. apply Hsummary; [|exact Hall].
    eapply listed_yields; eauto. apply fetchTrendingMovies_result.
  - intros Hl Hall. apply Hsummary; [|exact Hall].
    eapply listed_yields; eauto. apply fetchMoviesRecommendation_result.
  - intros Hl Hall. eapply yields_mapped_each.
    + eapply listed_yields; eauto.
      * apply fetchMovieCredits_result.
      * eapply Forall_impl; [|exact Hall]. apply cast_shaped_maps.
    + intros item c Hin. apply to_Cast_member.
      rewrite Forall_forall in Hall. now apply Hall.
  - intros Hl Hall. eapply yields_mapped_each.
    + eapply listed_yields; eauto.
      * apply fetchMovieReviews_result.
      * eapply Forall_impl; [|exact Hall]. apply present_maps_to_Review.
    + intros item r _. apply to_Review_review.
  - intros Henc Hl Hall. apply Hsummary; [|exact Hall].
    eapply listed_yields; eauto.
    apply (searchMovies_encoded token upstream query encoded Henc).
Qed.

Lemma list_wrappers_map_fields_in_order_witness :
  yields_each
    (fetchTrendingMovies Sample.token (Sample.replies Sample.movies))
    summary_of [Sample.fight_club; Sample.unreleased]
  /\ yields_each
       (fetchMovieCredits Sample.token (Sample.replies Sample.credits)
                          Sample.movieId)
       cast_member_of [Sample.norton]
  /\ yields_each
       (fetchMovieReviews Sample.token (Sample.replies Sample.reviews)
                          Sample.movieId)
       review_of [Sample.rated; Sample.anonymous]
  /\ yields_each
       (searchMovies Sample.token (Sample.replies Sample.movies)
                     (js "fight club"))
       summary_of [Sample.fight_club; Sample.unreleased].
Proof.
  split; [|split; [|split]].
  - destruct (list_wrappers_map_fields_in_order
                Sample.token (Sample.replies Sample.movies) Sample.movieId
                [] [] [Sample.fight_club; Sample.unreleased])
      as (trending & _).
    apply trending.
    + replied.
    + constructor; [|constructor; [|constructor]].
      * exists (Int 550), (Str (js "/pB8BM7pdSp6B6Ih7QZ4DrQ3PmJK.jpg")).
        split; [reflexivity | split; [reflexivity|]]. right. right. eauto.
      * exists (Int 999001), Null.
        split; [reflexivity | split; [reflexivity|]]. right. now left.
  - destruct (list_wrappers_map_fields_in_order
                Sample.token (Sample.replies Sample.credits) Sample.movieId
                [] [] [Sample.norton])
      as (_ & _ & credits & _).
    apply credits.
    + replied.
    + constructor; [|constructor]. exists (Int 819). reflexivity.
  - destruct (list_wrappers_map_fields_in_order
                Sample.token (Sample.replies Sample.reviews) Sample.movieId
                [] [] [Sample.rated; Sample.anonymous])
      as (_ & _ & _ & reviews & _).
    apply reviews.
    + replied.
    + repeat constructor; discriminate.
  - destruct (list_wrappers_map_fields_in_order
                Sample.token (Sample.replies Sample.movies) Sample.movieId
                (js "fight club") (js "fight%20club")
                [Sample.fight_club; Sample.unreleased])
      as (_ & _ & _ & _ & search).
    apply search.
    + reflexivity.
    + replied.
    + constructor; [|constructor; [|constructor]].
      * exists (Int 550), (Str (js "/pB8BM7pdSp6B6Ih7QZ4DrQ3PmJK.jpg")).
        split; [reflexivity | split; [reflexivity|]]. right. right. eauto.
      * exists (Int 999001), Null.
        split; [reflexivity | split; [reflexivity|]]. right. now left.
Defined.

(** The trending wrapper on the sample response, entry by entry. *)
Example fetchTrendingMovies_on_sample :
  result (fetchTrendingMovies Sample.token (Sample.replies Sample.movies))
  = Normal
      [{| Movie.id := js "550";
          Movie.title := Str (js "Fight Club");
          Movie.image :=
            js "https://image.tmdb.org/t/p/w500"
            ++ js "/pB8BM7pdSp6B6Ih7QZ4DrQ3PmJK.jpg";
          Movie.rating := Num (Real (js "8.4")) |};
       {| Movie.id := js "999001";
          Movie.title := Str (js "Untitled");
          Movie.image := js "https://image.tmdb.org/t/p/w500null";
          Movie.rating := Num (Int 0) |}].
Proof. reflexivity. Qed.

(** * The search request, for every query *)

Lemma surrogate_pair_reserved c d :
  leading_surrogate c = true -> trailing_surrogate d = true ->
  uri_unreserved (surrogate_pair c d) = false.
Proof.
  intros Hc Hd. pose proof (surrogate_pair_bounds c d Hc Hd) as Hb.
  destruct (uri_unreserved (surrogate_pair c d)) eqn:Hu; trivial.
  apply uri_unreserved_ascii in Hu. lia.
Qed.

Lemma flat_map_cons {A B} (f : A -> list B) x l :
  flat_map f (x :: l) = f x ++ flat_map f l.
Proof. reflexivity. Qed.

Lemma encode_point_unreserved cp :
  uri_unreserved cp = true -> encode_point cp = [cp].
Proof. unfold encode_point. now intros ->. Qed.

Lemma encode_point_reserved cp :
  uri_unreserved cp = false -> encode_point cp = escape cp.
Proof. unfold encode_point. now intros ->. Qed.

Lemma encodeURIComponent_by_code_points n :
  forall s,
    length s <= n -> isWellFormed s = true ->
    encodeURIComponent s = Normal (flat_map encode_point (code_points s)).
Proof.
  induction n as [|n IH]; intros [|c rest] Hlen Hwf; simpl in Hlen;
    trivial; try lia.
  cbn [encodeURIComponent code_points isWellFormed] in *.
  destruct (uri_unreserved c) eqn:Hc.
  - destruct (unreserved_no_surrogate c Hc) as [Hl Ht].
    rewrite Hl, Ht in Hwf. rewrite Hl. simpl in Hwf.
    rewrite (IH rest) by (trivial; lia).
    cbn [bind]. rewrite flat_map_cons.
    now rewrite (encode_point_unreserved c Hc).
  - destruct (leading_surrogate c) eqn:Hl.
    + assert (Ht : trailing_surrogate c = false).
      { revert Hl. unfold leading_surrogate, trailing_surrogate.
        rewrite andb_true_iff, andb_false_iff, !N.leb_le, !N.leb_gt. lia. }
      rewrite Ht. destruct rest as [|d rest']; [discriminate|].
      apply andb_true_iff in Hwf as [Hd Hwf]. rewrite Hd.
      rewrite (IH rest') by (trivial; simpl in Hlen; lia).
      cbn [bind]. rewrite flat_map_cons.
      now rewrite (encode_point_reserved _
                     (surrogate_pair_reserved c d Hl Hd)).
    + apply andb_true_iff in Hwf as [Ht Hwf].
      apply negb_true_iff in Ht. rewrite Ht.
      rewrite (IH rest) by (trivial; lia).
      cbn [bind]. rewrite flat_map_cons.
      now rewrite (encode_point_reserved c Hc).
Qed.

(** C10, amended.  For every query string that is well formed (no surrogate
    without its partner), [searchMovies] sends one request, whose URL is the
    search endpoint, then the query as [encodeURIComponent] encodes it, then
    the fixed [&language=en-US].  The encoded query is the query with every
    code point that is no unreserved character replaced by the escapes of
    its UTF-8 octets; it is made of unreserved characters and percent signs
    only: it holds no [&], [=], [?], [#], [+], [/] or space and nothing
    outside ASCII, and so cannot touch the other parameters of the URL.
    For every query string that is not well formed, [encodeURIComponent]
    throws a [URIError] inside the [try] block: no URL is built, no request
    is sent, the error is logged and the result is the empty list. *)
Theorem search_encodes_query_or_sends_nothing
  (token : option jsstring) (upstream : request -> completion response)
  (query : jsstring) :
  (isWellFormed query = true ->
   exists encoded,
     encodeURIComponent query = Normal encoded
     /\ encoded = flat_map encode_point (code_points query)
     /\ requests (trace (searchMovies token upstream query))
        = [search_request token encoded]
     /\ url (search_request token encoded)
        = js "https://api.themoviedb.org/3/search/movie?query="
          ++ encoded ++ js "&language=en-US"
     /\ forall c,
         In c encoded ->
         uri_safe c /\ ~ In c (js "&=?#+/ ") /\ (c < 128)%N)
  /\ (isWellFormed query = false ->
      encodeURIComponent query = Throw URIError
      /\ requests (trace (searchMovies token upstream query)) = []
      /\ searchMovies token upstream query
         = {| trace := [Logged "Error searching movies:" URIError];
              result := Normal [] |}).
Proof.
  split.
  - intros Hwf.
    pose proof (encodeURIComponent_by_code_points
                  (length query) query (le_n _) Hwf) as Henc.
    exists (flat_map encode_point (code_points query)).
    split; [exact Henc | split; [reflexivity | split; [|split]]].
    + apply (searchMovies_encoded token upstream query _ Henc).
    + reflexivity.
    + intros c Hc.
      pose proof (encodeURIComponent_safe (length query) query _
                    (le_n _) Henc) as Hsafe.
      rewrite Forall_forall in Hsafe. specialize (Hsafe c Hc).
      split; [exact Hsafe|].
      destruct Hsafe as [Hu | ->].
      * split; [now apply uri_unreserved_not_delimiter
               | now apply uri_unreserved_ascii].
      * split; [simpl; intuition discriminate | reflexivity].
  - intros Hill.
    pose proof (encodeURIComponent_well_formed
                  (length query) query (le_n _)) as H.
    destruct (encodeURIComponent query) as [encoded|e] eqn:Henc;
      [congruence|].
    destruct H as [-> _].
    rewrite (searchMovies_not_encoded token upstream query URIError Henc).
    repeat split.
Qed.

Lemma search_encodes_query_or_sends_nothing_witness :
  (requests (trace (searchMovies Sample.token
                                 (Sample.replies Sample.movies)
                                 (js "tom & jerry")))
   = [search_request Sample.token (js "tom%20%26%20jerry")]
   /\ url (search_request Sample.token (js "tom%20%26%20jerry"))
      = js "https://api.themoviedb.org/3/search/movie?query="
        ++ js "tom%20%26%20jerry&language=en-US")
  /\ (encodeURIComponent (js "alien " ++ [56832%N]) = Throw URIError
      /\ requests (trace (searchMovies Sample.token
                                       (Sample.replies Sample.movies)
                                       (js "alien " ++ [56832%N])))
         = []).
Proof.
  split.
  - destruct (search_encodes_query_or_sends_nothing
                Sample.token (Sample.replies Sample.movies)
                (js "tom & jerry"))
      as (well_formed & _).
    destruct (well_formed eq_refl)
      as (encoded & Henc & _ & Hrequests & Hurl & _).
    injection Henc as <-. split; [exact Hrequests | exact Hurl].
  - destruct (search_encodes_query_or_sends_nothing
                Sample.token (Sample.replies Sample.movies)
                (js "alien " ++ [56832%N]))
      as (_ & ill_formed).
    destruct (ill_formed eq_refl) as (Hthrows & Hrequests & _).
    split; [exact Hthrows | exact Hrequests].
Defined.
